(** * SocSIM: the base class of the sandpile simulations

    A shallow embedding of [SOC/common/simulation.py]: the boundary
    cleaning routine [clean_boundary_inplace] on two-dimensional arrays,
    and the class [Simulation] with its relaxation loop [AvalancheLoop]
    and its driving loop [run]. *)

From stdpp Require Import gmap strings list fin_maps.
From Stdlib Require Import ZArith Lia.

Local Open Scope Z_scope.

(** ** Python slices *)

(** A slice [start:stop] with no step; [None] is an omitted bound. *)
Record pyslice := Slice { slice_start : option Z; slice_stop : option Z }.

(** How Python places one bound of a slice on an axis of length [len]:
    a negative bound counts from the end, and the result is clipped to
    [0 .. len]. *)
Definition adjust_index (len : nat) (k : Z) : Z :=
  if k <? 0 then Z.max (k + Z.of_nat len) 0 else Z.min k (Z.of_nat len).

(** [slice.indices(len)] for a slice of step one. *)
Definition slice_indices (sl : pyslice) (len : nat) : Z * Z :=
  (from_option (adjust_index len) 0 (slice_start sl),
   from_option (adjust_index len) (Z.of_nat len) (slice_stop sl)).

(** Whether position [i] of an axis is selected by the bounds [lohi]. *)
Definition selected (lohi : Z * Z) (i : nat) : bool :=
  (lohi.1 <=? Z.of_nat i) && (Z.of_nat i <? lohi.2).

(** [:b] and [-b:] as the source writes them. *)
Definition slice_upto (b : Z) : pyslice := Slice None (Some b).
Definition slice_last (b : Z) : pyslice := Slice (Some (- b)) None.

(** ** Element types *)

(** An array has one fixed element type, and a value assigned into it
    is converted to that type on the way in.  [W] is the type of the
    values offered, [V] the type of the cells. *)
Class dtype (W V : Type) := astype : W → V.

(** An int64 array keeps the low 64 bits of a Python int, read as a
    signed number. *)
#[global] Instance int64 : dtype Z Z :=
  λ z, (z + 2 ^ 63) `mod` 2 ^ 64 - 2 ^ 63.

(** A bool array takes a Python bool as it is. *)
#[global] Instance bool_ : dtype bool bool := λ b, b.

(** ** Two-dimensional arrays and the heap they live in *)

Section Arrays.
Context {W V : Type} {array_dtype : dtype W V}.

(** A 2D array is the list of its rows. *)
Definition shape (a : list (list V)) : nat * nat :=
  (length a, length (default [] (head a))).

(** All rows of [a] have [C] cells and there are [R] of them. *)
Definition rect (R C : nat) (a : list (list V)) : Prop :=
  length a = R ∧ Forall (λ row, length row = C) a.

Definition cell (a : list (list V)) (i j : nat) : option V :=
  a !! i ≫= (.!! j).

(** The content of [array] after [array[sl, :] = fill_value]: the
    selected rows hold the value as converted to the array's type. *)
Definition fill_rows (sl : pyslice) (fill_value : W) (a : list (list V))
    : list (list V) :=
  let lohi := slice_indices sl (shape a).1 in
  imap (λ i row, if selected lohi i then const (astype fill_value) <$> row else row) a.

(** The content of [array] after [array[:, sl] = fill_value]. *)
Definition fill_cols (sl : pyslice) (fill_value : W) (a : list (list V))
    : list (list V) :=
  let lohi := slice_indices sl (shape a).2 in
  (λ row, imap (λ j x, if selected lohi j then astype fill_value else x) row) <$> a.

(** Arrays are objects: a variable holds a reference into a heap, and
    an assignment through one reference is seen through every other. *)
Definition ref := positive.

Definition setitem (r : ref) (f : list (list V) → list (list V))
    (h : gmap ref (list (list V))) : option (gmap ref (list (list V))) :=
  a ← h !! r; Some (<[r := f a]> h).

(** [clean_boundary_inplace(array, boundary_size, fill_value)]: four
    slice assignments through the reference [array], which is then
    returned. *)
Definition clean_boundary_inplace (array : ref) (boundary_size : Z) (fill_value : W)
    (h : gmap ref (list (list V))) : option (ref * gmap ref (list (list V))) :=
  h ← setitem array (fill_rows (slice_upto boundary_size) fill_value) h;
  h ← setitem array (fill_rows (slice_last boundary_size) fill_value) h;
  h ← setitem array (fill_cols (slice_upto boundary_size) fill_value) h;
  h ← setitem array (fill_cols (slice_last boundary_size) fill_value) h;
  Some (array, h).

(** The content the four assignments leave in the array. *)
Definition cleaned (b : Z) (fill_value : W) (a : list (list V)) : list (list V) :=
  fill_cols (slice_last b) fill_value (fill_cols (slice_upto b) fill_value
    (fill_rows (slice_last b) fill_value (fill_rows (slice_upto b) fill_value a))).

(** Filling the cells picked by a mask [m]; every slice assignment
    above is one of these. *)
Definition mask_fill (m : nat → nat → bool) (v : V) (a : list (list V)) : list (list V) :=
  imap (λ i row, imap (λ j x, if m i j then v else x) row) a.

(** The cells the routine overwrites in an array of shape [(R, C)]. *)
Definition overwritten (R C : nat) (b : Z) (i j : nat) : bool :=
  selected (slice_indices (slice_upto b) R) i || selected (slice_indices (slice_last b) R) i
  || selected (slice_indices (slice_upto b) C) j || selected (slice_indices (slice_last b) C) j.

End Arrays.

(** ** Exceptions and the monad of methods *)

Inductive exn :=
  | NotImplementedError (msg : string)
  | TypeError
  | ZeroDivisionError
  | AttributeError
  | IndexError
  | ValueError.

(** What a call leaves behind: a value and the object's new state, an
    exception and the state at the time it was raised, or no answer
    within the fuel given. *)
Inductive outcome (S A : Type) :=
  | Ok (a : A) (s : S)
  | Raise (e : exn) (s : S)
  | OutOfFuel.
Arguments Ok {S A} a s.
Arguments Raise {S A} e s.
Arguments OutOfFuel {S A}.

Definition ret {S A} (a : A) : S → outcome S A := λ s, Ok a s.
Definition raise {S A} (e : exn) : S → outcome S A := λ s, Raise e s.
Definition bind {S A B} (m : S → outcome S A) (k : A → S → outcome S B) : S → outcome S B :=
  λ s, match m s with
       | Ok a s' => k a s'
       | Raise e s' => Raise e s'
       | OutOfFuel => OutOfFuel
       end.
Definition get {S} : S → outcome S S := λ s, Ok s s.
Definition modify {S} (f : S → S) : S → outcome S unit := λ s, Ok tt (f s).

Declare Scope method_scope.
Delimit Scope method_scope with method.
Notation "x <~ m ; k" := (bind m (λ x, k))
  (at level 100, m at next level, right associativity) : method_scope.
Notation "m ;; k" := (bind m (λ _, k))
  (at level 100, right associativity) : method_scope.

(** Python's [//] and [%] on an int and an attribute that may be [None]. *)
Definition floordiv {S} (a : Z) (b : option Z) : S → outcome S Z :=
  match b with
  | None => raise TypeError
  | Some c => if c =? 0 then raise ZeroDivisionError else ret (a / c)
  end.

Definition pymod {S} (a : Z) (b : option Z) : S → outcome S Z :=
  match b with
  | None => raise TypeError
  | Some c => if c =? 0 then raise ZeroDivisionError else ret (a mod c)
  end.

(** ** The snapshot store *)

(** Modelled from the spec: the snapshot sink (the zarr array behind
    [saved_snapshots]) is a pre-sized store keyed by frame index; its
    write takes an index and a frame, and a write outside the allocated
    frames fails with an indexing error.  A frame never written reads as
    [None]; a negative index counts from the end, as everywhere in
    Python. *)
Record zarr_array := ZarrArray {
  frame_shape : Z * Z;
  frames : list (option (list (list Z)))
}.

Definition zarr_open (n rows cols : Z) : zarr_array :=
  ZarrArray (rows, cols) (replicate (Z.to_nat n) None).

Definition zarr_setitem (z : zarr_array) (index : Z) (frame : list (list Z))
    : option zarr_array :=
  let len := Z.of_nat (length (frames z)) in
  let k := if index <? 0 then index + len else index in
  if (0 <=? k) && (k <? len)
  then Some (ZarrArray (frame_shape z) (<[Z.to_nat k := Some frame]> (frames z)))
  else None.

(** ** The class [Simulation] *)

Definition BOUNDARY_SIZE : Z := 1.

Section Simulation.
(** The attributes a subclass adds to the object. *)
Context {X : Type}.

(** An object of the class.  [values] and [saved_snapshots] are
    [NotImplemented] (here [None]) until a subclass, respectively
    [run], assigns them. *)
Record Simulation := {
  L : Z;
  L_with_boundary : Z;
  size : Z;
  visited : list (list bool);
  data_acquisition : list (gmap string Z);
  save_every : option Z;
  values : option (list (list Z));
  saved_snapshots : option zarr_array;
  extra : X
}.

Definition set_visited (f : list (list bool) → list (list bool)) (s : Simulation) :=
  {| L := L s; L_with_boundary := L_with_boundary s; size := size s;
     visited := f (visited s); data_acquisition := data_acquisition s;
     save_every := save_every s; values := values s;
     saved_snapshots := saved_snapshots s; extra := extra s |}.

Definition set_data_acquisition (f : list (gmap string Z) → list (gmap string Z))
    (s : Simulation) :=
  {| L := L s; L_with_boundary := L_with_boundary s; size := size s;
     visited := visited s; data_acquisition := f (data_acquisition s);
     save_every := save_every s; values := values s;
     saved_snapshots := saved_snapshots s; extra := extra s |}.

Definition set_saved_snapshots (z : zarr_array) (s : Simulation) :=
  {| L := L s; L_with_boundary := L_with_boundary s; size := size s;
     visited := visited s; data_acquisition := data_acquisition s;
     save_every := save_every s; values := values s;
     saved_snapshots := Some z; extra := extra s |}.

(** [np.zeros((n, n), dtype=bool)] *)
Definition zeros (n : Z) : list (list bool) :=
  replicate (Z.to_nat n) (replicate (Z.to_nat n) false).

(** [Simulation.__init__(L, save_every)]; [x] holds what the subclass
    stores besides. *)
Definition __init__ (L : Z) (save_every : option Z) (x : X) : exn + Simulation :=
  let L_with_boundary := L + 2 * BOUNDARY_SIZE in
  if L_with_boundary <? 0 then inl ValueError
  else inr {| L := L; L_with_boundary := L_with_boundary; size := L * L;
              visited := zeros L_with_boundary; data_acquisition := [];
              save_every := save_every; values := None;
              saved_snapshots := None; extra := x |}.

(** *** The methods a model supplies *)

(** A subclass is the table of the methods it overrides. *)
Record subclass := {
  drive_override : option (Simulation → outcome Simulation unit);
  topple_override : option (Simulation → outcome Simulation bool);
  dissipate_override : option (Simulation → outcome Simulation unit)
}.

Definition Simulation_drive : Simulation → outcome Simulation unit :=
  raise (NotImplementedError "Your model needs to override the drive method!").

Definition Simulation_topple : Simulation → outcome Simulation bool :=
  raise (NotImplementedError "Your model needs to override the topple method!").

Definition Simulation_dissipate : Simulation → outcome Simulation unit :=
  ret tt.

(** Method lookup: the subclass's own method, else the base class's. *)
Definition drive (cls : subclass) := default Simulation_drive (drive_override cls).
Definition topple (cls : subclass) := default Simulation_topple (topple_override cls).
Definition dissipate (cls : subclass) := default Simulation_dissipate (dissipate_override cls).

(** *** [AvalancheLoop] *)

(** [visited.sum()]: the number of [True] cells. *)
Definition array_sum (a : list (list bool)) : Z :=
  Z.of_nat (sum_list_with (λ row, sum_list_with (λ b : bool, if b then 1 else 0)%nat row) a).

(** [self.visited[...] = False] *)
Definition reset_visited : Simulation → Simulation :=
  set_visited (λ a, (λ row : list bool, const false <$> row) <$> a).

(** The [while self.topple()] loop, entered with the counter at
    [number_of_iterations]; one unit of fuel per test of the
    condition. *)
Fixpoint relax (cls : subclass) (fuel : nat) (number_of_iterations : Z)
    : Simulation → outcome Simulation Z :=
  match fuel with
  | O => λ _, OutOfFuel
  | S fuel =>
      (toppled <~ topple cls;
       if toppled : bool
       then (dissipate cls;; relax cls fuel (number_of_iterations + 1))
       else ret number_of_iterations)%method
  end.

Definition observables (AvalancheSize number_of_iterations : Z) : gmap string Z :=
  {[ "AvalancheSize" := AvalancheSize; "number_of_iterations" := number_of_iterations ]}.

Definition AvalancheLoop (cls : subclass) (fuel : nat)
    : Simulation → outcome Simulation (gmap string Z) :=
  (modify reset_visited;;
   number_of_iterations <~ relax cls fuel 0;
   self <~ get;
   let AvalancheSize := array_sum (visited self) in
   ret (observables AvalancheSize number_of_iterations))%method.

(** *** [run] *)

(** The number of frames [run] allocates. *)
Definition snapshot_capacity (N_iterations save_every : Z) : Z :=
  Z.max (N_iterations / save_every) 1.

(** [_save_snapshot(i)].  An attribute still [NotImplemented] cannot be
    assigned into, nor stored as a frame. *)
Definition _save_snapshot (i : Z) : Simulation → outcome Simulation unit :=
  (self <~ get;
   index <~ floordiv i (save_every self);
   match saved_snapshots self, values self with
   | Some z, Some frame =>
       match zarr_setitem z index frame with
       | Some z' => modify (set_saved_snapshots z')
       | None => raise IndexError
       end
   | _, _ => raise TypeError
   end)%method.

(** The body of the [for] loop at step [i]. *)
Definition run_step (cls : subclass) (fuel : nat) (i : Z)
    : Simulation → outcome Simulation unit :=
  (drive cls;;
   observables <~ AvalancheLoop cls fuel;
   modify (set_data_acquisition (λ l, l ++ [observables]));;
   self <~ get;
   match save_every self with
   | None => ret tt
   | Some _ =>
       m <~ pymod i (save_every self);
       if m =? 0 then _save_snapshot i else ret tt
   end)%method.

Fixpoint for_each (body : Z → Simulation → outcome Simulation unit) (l : list Z)
    : Simulation → outcome Simulation unit :=
  match l with
  | [] => ret tt
  | i :: l => (body i;; for_each body l)%method
  end.

(** [range(n)] *)
Definition range (n : Z) : list Z := Z.of_nat <$> seq 0 (Z.to_nat n).

(** [run(N_iterations)].  The name of the store plays no part in its
    shape or in the writes and is left out; [fuel] bounds each
    avalanche. *)
Definition run (cls : subclass) (fuel : nat) (N_iterations : Z)
    : Simulation → outcome Simulation unit :=
  (self <~ get;
   q <~ floordiv N_iterations (save_every self);
   match values self with
   | None => raise AttributeError
   | Some _ =>
       modify (set_saved_snapshots
                 (zarr_open (Z.max q 1) (L_with_boundary self) (L_with_boundary self)));;
       for_each (run_step cls fuel) (range N_iterations)
   end)%method.

End Simulation.

Arguments Simulation : clear implicits.
Arguments subclass : clear implicits.

(** ** The avalanche engine as the specification words it *)

(** A mask of the same shape with every cell false. *)
Definition all_false (mask : list (list bool)) : list (list bool) :=
  (λ row, replicate (length row) false) <$> mask.

(** The number of true cells of a mask. *)
Definition count_true (mask : list (list bool)) : nat :=
  length (filter (λ b : bool, b = true) (concat mask)).

(** States [Idle → Relaxing → Quiescent]; a configuration carries the
    object and the iteration counter. *)
Inductive engine_state := Idle | Relaxing | Quiescent.

Inductive engine_step {X} (cls : subclass X)
    : engine_state * Simulation X * Z → engine_state * Simulation X * Z → Prop :=
  | engine_start s :
      engine_step cls (Idle, s, 0) (Relaxing, set_visited all_false s, 0)
  | engine_round s s1 s2 n :
      topple cls s = Ok true s1 →
      dissipate cls s1 = Ok tt s2 →
      engine_step cls (Relaxing, s, n) (Relaxing, s2, n + 1)
  | engine_quiesce s s1 n :
      topple cls s = Ok false s1 →
      engine_step cls (Relaxing, s, n) (Quiescent, s1, n).

(** [n] topple rounds, each a [topple] answering true followed by
    [dissipate], bring the object [s] to rest as [s']. *)
Inductive rounds {X} (cls : subclass X) : Simulation X → nat → Simulation X → Prop :=
  | rounds_rest s s' :
      topple cls s = Ok false s' → rounds cls s 0 s'
  | rounds_more s s1 s2 n s' :
      topple cls s = Ok true s1 →
      dissipate cls s1 = Ok tt s2 →
      rounds cls s2 n s' →
      rounds cls s (S n) s'.

(** The object a call leaves behind, whether it returned or raised. *)
Definition final_state {S A} (o : outcome S A) : option S :=
  match o with
  | Ok _ s | Raise _ s => Some s
  | OutOfFuel => None
  end.

(** ** Observing two runs side by side *)

Section Observation.
Context {X : Type}.

(** The visited mask as it stands after the reset and after every call
    of [topple] and of [dissipate] made by the loop. *)
Fixpoint relax_visited (cls : subclass X) (fuel : nat) (s : Simulation X)
    : list (list (list bool)) :=
  match fuel with
  | O => []
  | S fuel =>
      match topple cls s with
      | Ok true s1 =>
          visited s1 ::
          match dissipate cls s1 with
          | Ok _ s2 => visited s2 :: relax_visited cls fuel s2
          | _ => []
          end
      | Ok false s1 => [visited s1]
      | _ => []
      end
  end.

Definition visited_updates (cls : subclass X) (fuel : nat) (s : Simulation X)
    : list (list (list bool)) :=
  visited (reset_visited s) :: relax_visited cls fuel (reset_visited s).

(** Two objects with the same lattice and the same visited mask. *)
Definition agree (s1 s2 : Simulation X) : Prop :=
  values s1 = values s2 ∧ visited s1 = visited s2.

Definition outcome_agree {A} (o1 o2 : outcome (Simulation X) A) : Prop :=
  match o1, o2 with
  | Ok a1 s1, Ok a2 s2 => a1 = a2 ∧ agree s1 s2
  | Raise e1 s1, Raise e2 s2 => e1 = e2 ∧ agree s1 s2
  | OutOfFuel, OutOfFuel => True
  | _, _ => False
  end.

(** A method whose answer and whose effect on the lattice and on the
    mask are decided by the lattice and the mask alone. *)
Definition lattice_determined {A} (m : Simulation X → outcome (Simulation X) A) : Prop :=
  ∀ s1 s2, agree s1 s2 → outcome_agree (m s1) (m s2).

End Observation.

(** ** The tabular export *)

(** Modelled from the spec: the table made of the accumulated records
    ([pandas.DataFrame(self.data_acquisition)]) has the records' keys as
    its columns and one row per record. *)
Definition DataFrame_columns (records : list (gmap string Z)) : gset string :=
  ⋃ (dom <$> records).

(** ** Two small models *)

(** The base class itself: nothing is overridden. *)
Definition Base : subclass unit :=
  {| drive_override := None; topple_override := None; dissipate_override := None |}.

(** A model that never topples: [drive] does nothing and [topple]
    answers [False]. *)
Definition Quiet : subclass unit :=
  {| drive_override := Some (ret tt);
     topple_override := Some (ret false);
     dissipate_override := None |}.

(** A freshly built object of a model over a lattice of zeros. *)
Definition fresh {X} (L : Z) (save_every : option Z) (x : X) : Simulation X :=
  {| L := L; L_with_boundary := L + 2 * BOUNDARY_SIZE; size := L * L;
     visited := zeros (L + 2 * BOUNDARY_SIZE); data_acquisition := [];
     save_every := save_every;
     values := Some (replicate (Z.to_nat (L + 2 * BOUNDARY_SIZE))
                       (replicate (Z.to_nat (L + 2 * BOUNDARY_SIZE)) 0));
     saved_snapshots := None; extra := x |}.

Definition set_values {X} (v : list (list Z)) (s : Simulation X) : Simulation X :=
  {| L := L s; L_with_boundary := L_with_boundary s; size := size s;
     visited := visited s; data_acquisition := data_acquisition s;
     save_every := save_every s; values := Some v;
     saved_snapshots := saved_snapshots s; extra := extra s |}.

Definition set_extra {X} (x : X) (s : Simulation X) : Simulation X :=
  {| L := L s; L_with_boundary := L_with_boundary s; size := size s;
     visited := visited s; data_acquisition := data_acquisition s;
     save_every := save_every s; values := values s;
     saved_snapshots := saved_snapshots s; extra := x |}.

Definition alter_cell {V} (f : V → V) (i j : nat) (a : list (list V)) : list (list V) :=
  alter (alter f j) i a.

(** A sandpile with the single site [(1, 1)]: [drive] drops a grain on
    it, a site holding four grains or more sheds one to each neighbour
    and is marked visited, and [dissipate] empties the boundary ring.
    The object counts its calls of [drive] in [extra]. *)
Definition OneSite : subclass nat :=
  {| drive_override := Some
       (λ s, match values s with
             | Some v => Ok tt (set_extra (S (extra s)) (set_values (alter_cell (Z.add 1) 1 1 v) s))
             | None => Raise AttributeError s
             end);
     topple_override := Some
       (λ s, match values s with
             | Some v =>
                 match cell v 1 1 with
                 | Some x =>
                     if 4 <=? x
                     then Ok true
                            (set_visited (alter_cell (const true) 1 1)
                               (set_values
                                  (alter_cell (Z.add 1) 0 1 (alter_cell (Z.add 1) 2 1
                                     (alter_cell (Z.add 1) 1 0 (alter_cell (Z.add 1) 1 2
                                        (alter_cell (λ x, x - 4) 1 1 v))))) s))
                     else Ok false s
                 | None => Raise IndexError s
                 end
             | None => Raise AttributeError s
             end);
     dissipate_override := Some
       (λ s, match values s with
             | Some v => Ok tt (set_values (cleaned BOUNDARY_SIZE 0 v) s)
             | None => Raise AttributeError s
             end) |}.

(** The one-site sandpile about to topple, and at rest afterwards. *)
Definition loaded : Simulation nat :=
  set_values [[0;0;0];[0;4;0];[0;0;0]] (fresh 1 (Some 100) 0%nat).

Definition relaxed : Simulation nat :=
  set_visited (λ _, [[false;false;false];[false;true;false];[false;false;false]])
    (set_values [[0;0;0];[0;0;0];[0;0;0]] (fresh 1 (Some 100) 0%nat)).

(** The steps of [run(N_iterations)] at which a snapshot is written. *)
Definition snapshot_steps (N_iterations save_every : Z) : list Z :=
  filter (λ i, i `mod` save_every = 0) (range N_iterations).

(** A record as a step makes them, with nonnegative fields. *)
Definition record_ok (r : gmap string Z) : Prop :=
  ∃ AvalancheSize number_of_iterations,
    r = observables AvalancheSize number_of_iterations
    ∧ 0 ≤ AvalancheSize ∧ 0 ≤ number_of_iterations.

(** ** Reading a slice *)

(** The part of an axis between the bounds [lohi], as a read
    [l[start:stop]] returns it: empty when the bounds cross. *)
Definition between {A} (lohi : Z * Z) (l : list A) : list A :=
  take (Z.to_nat (lohi.2 - lohi.1)) (drop (Z.to_nat lohi.1) l).

(** [array[rows, cols]] for two slices. *)
Definition getitem {V} (rows cols : pyslice) (a : list (list V)) : list (list V) :=
  between (slice_indices cols (shape a).2) <$> between (slice_indices rows (shape a).1) a.

(** [plot_state(with_boundaries)]: the array that is handed to
    [imshow], the lattice itself or [values[B:-B, B:-B]]. *)
Definition plot_state_values (with_boundaries : bool) (values : list (list Z))
    : list (list Z) :=
  if with_boundaries then values
  else getitem (Slice (Some BOUNDARY_SIZE) (Some (- BOUNDARY_SIZE)))
               (Slice (Some BOUNDARY_SIZE) (Some (- BOUNDARY_SIZE))) values.

(** ** Watching the driving loop *)

(** The object as it stands after each completed step of a [for] loop. *)
Fixpoint for_each_states {S} (body : Z → S → outcome S unit) (l : list Z) (s : S)
    : list S :=
  match l with
  | [] => []
  | i :: l =>
      match body i s with
      | Ok _ s' => s' :: for_each_states body l s'
      | _ => []
      end
  end.

(** The object after each completed step of [run(N_iterations)]. *)
Definition run_states {X} (cls : subclass X) (fuel : nat) (N_iterations : Z)
    (s : Simulation X) : list (Simulation X) :=
  match floordiv N_iterations (save_every s) s, values s with
  | Ok q _, Some _ =>
      for_each_states (run_step cls fuel) (range N_iterations)
        (set_saved_snapshots
           (zarr_open (Z.max q 1) (L_with_boundary s) (L_with_boundary s)) s)
  | _, _ => []
  end.

(** A model that never comes to rest: [topple] always answers [True]. *)
Definition Restless : subclass unit :=
  {| drive_override := Some (ret tt);
     topple_override := Some (ret true);
     dissipate_override := None |}.

(** A model that only piles up: [drive] drops a grain on the site
    [(1, 1)] and [topple] always answers [False]. *)
Definition Piling : subclass unit :=
  {| drive_override := Some
       (λ s, match values s with
             | Some v => Ok tt (set_values (alter_cell (Z.add 1) 1 1 v) s)
             | None => Raise AttributeError s
             end);
     topple_override := Some (ret false);
     dissipate_override := None |}.

(** * Properties *)

(** ** Boundary cleaning *)

Section ArrayFacts.
Context {W V : Type} {array_dtype : dtype W V}.
Implicit Types (a : list (list V)) (v : V) (w : W) (m : nat → nat → bool).

Lemma head_imap {A B} (f : nat → A → B) (l : list A) :
  head (imap f l) = f 0%nat <$> head l.
Proof. by destruct l. Qed.

Lemma shape_mask_fill m v a : shape (mask_fill m v a) = shape a.
Proof.
  unfold shape, mask_fill. rewrite length_imap, head_imap.
  destruct (head a) as [row|]; simpl; [|done]. by rewrite length_imap.
Qed.

Lemma cell_mask_fill m v a i j :
  cell (mask_fill m v a) i j = (λ x, if m i j then v else x) <$> cell a i j.
Proof.
  unfold cell, mask_fill. rewrite list_lookup_imap.
  destruct (a !! i) as [row|]; simpl; [|done]. by rewrite list_lookup_imap.
Qed.

Lemma mask_fill_ext m1 m2 v a :
  (∀ i j, m1 i j = m2 i j) → mask_fill m1 v a = mask_fill m2 v a.
Proof.
  intros Hm. unfold mask_fill. apply imap_ext; intros i row _.
  apply imap_ext; intros j x _. by rewrite Hm.
Qed.

Lemma mask_fill_twice m1 m2 v a :
  mask_fill m2 v (mask_fill m1 v a) = mask_fill (λ i j, m1 i j || m2 i j) v a.
Proof.
  unfold mask_fill. apply list_eq; intros i. rewrite !list_lookup_imap.
  destruct (a !! i) as [row|]; simpl; [|done]. f_equal.
  apply list_eq; intros j. rewrite !list_lookup_imap.
  destruct (row !! j) as [x|]; simpl; [|done]. by destruct (m1 i j), (m2 i j).
Qed.

Lemma fill_rows_mask sl w a :
  fill_rows sl w a
  = mask_fill (λ i _, selected (slice_indices sl (shape a).1) i) (astype w) a.
Proof.
  unfold fill_rows, mask_fill. apply imap_ext; intros i row _.
  destruct (selected _ i).
  - by rewrite <- imap_const.
  - induction row as [|x row IH]; [done|]. simpl. f_equal.
    rewrite IH at 1. by apply imap_ext.
Qed.

Lemma fill_cols_mask sl w a :
  fill_cols sl w a
  = mask_fill (λ _ j, selected (slice_indices sl (shape a).2) j) (astype w) a.
Proof. unfold fill_cols, mask_fill. by rewrite <- imap_const. Qed.

(** The four assignments together fill exactly the cells of
    [overwritten]. *)
Lemma cleaned_mask b w a :
  cleaned b w a = mask_fill (overwritten (shape a).1 (shape a).2 b) (astype w) a.
Proof.
  unfold cleaned.
  rewrite (fill_rows_mask (slice_upto b)).
  rewrite (fill_rows_mask (slice_last b)), shape_mask_fill.
  rewrite (fill_cols_mask (slice_upto b)), mask_fill_twice, shape_mask_fill.
  rewrite (fill_cols_mask (slice_last b)), !mask_fill_twice, shape_mask_fill.
  apply mask_fill_ext; intros i j. rewrite shape_mask_fill. unfold overwritten.
  by rewrite !orb_assoc.
Qed.

Lemma shape_cleaned b w a : shape (cleaned b w a) = shape a.
Proof. by rewrite cleaned_mask, shape_mask_fill. Qed.

Lemma cleaned_cleaned b w a : cleaned b w (cleaned b w a) = cleaned b w a.
Proof.
  rewrite (cleaned_mask b w (cleaned b w a)), shape_cleaned.
  rewrite cleaned_mask, mask_fill_twice.
  apply mask_fill_ext; intros i j. apply orb_diag.
Qed.

Lemma rect_shape R C a : rect R C a → (0 < R)%nat → shape a = (R, C).
Proof.
  intros [Hlen Hrows] HR. unfold shape. rewrite Hlen. f_equal.
  destruct a as [|row a]; simpl in *; [lia|]. by inversion Hrows.
Qed.

Lemma rect_cell R C a i j :
  rect R C a → (i < R)%nat → (j < C)%nat → is_Some (cell a i j).
Proof.
  intros [Hlen Hrows] Hi Hj. unfold cell.
  destruct (lookup_lt_is_Some_2 a i) as [row Hrow]; [lia|].
  rewrite Hrow. simpl. apply lookup_lt_is_Some_2.
  rewrite Forall_lookup in Hrows. by rewrite (Hrows _ _ Hrow).
Qed.

(** What the call does to the heap: the object behind [r] gets its new
    content, and [r] itself comes back. *)
Lemma clean_boundary_inplace_heap (r : ref) b w (h : gmap ref (list (list V))) a :
  h !! r = Some a →
  clean_boundary_inplace r b w h = Some (r, <[r := cleaned b w a]> h).
Proof.
  intros Hr. unfold clean_boundary_inplace, setitem. rewrite Hr. simpl.
  rewrite lookup_insert_eq. simpl. rewrite lookup_insert_eq. simpl.
  rewrite lookup_insert_eq. simpl. by rewrite !insert_insert_eq.
Qed.

End ArrayFacts.

Section BoundaryClaims.
Context {W V : Type} {array_dtype : dtype W V}.
Implicit Types (a : list (list V)) (h : gmap ref (list (list V))).

Lemma rect_cleaned R C b (w : W) a : rect R C a → rect R C (cleaned b w a).
Proof.
  intros [Hlen Hrows]. rewrite cleaned_mask. unfold mask_fill.
  split; [by rewrite length_imap|].
  rewrite Forall_lookup in Hrows. apply Forall_lookup; intros i row.
  rewrite list_lookup_imap_Some. intros (row' & Hrow' & ->).
  rewrite length_imap. eauto.
Qed.

(** With a width between 1 and half the side, the overwritten cells are
    those closer than [B] to an edge. *)
Lemma overwritten_near_edge (R C : nat) (B : Z) (i j : nat) :
  1 ≤ B → 2 * B ≤ Z.of_nat R → 2 * B ≤ Z.of_nat C → (i < R)%nat → (j < C)%nat →
  overwritten R C B i j = true ↔ (Z.of_nat i < B ∨ Z.of_nat R - B ≤ Z.of_nat i ∨ Z.of_nat j < B ∨ Z.of_nat C - B ≤ Z.of_nat j).
Proof.
  intros HB HR HC Hi Hj.
  unfold overwritten, selected, slice_indices, slice_upto, slice_last, adjust_index; simpl.
  rewrite !orb_true_iff, !andb_true_iff.
  destruct (Z.ltb_spec B 0), (Z.ltb_spec (- B) 0); lia.
Qed.

End BoundaryClaims.

Lemma int64_holds (z : Z) : - 2 ^ 63 ≤ z < 2 ^ 63 → astype (dtype := int64) z = z.
Proof.
  intros Hz. unfold astype, int64.
  rewrite Z.mod_small by lia. lia.
Qed.

(** C4, as the code has it: for an array of shape [(R, C)] with both
    sides at least [2B] and a width [B ≥ 1], the call writes through the
    reference it is given and returns that same reference; every other
    object of the heap is untouched; afterwards every cell closer than
    [B] to an edge holds [fill_value] converted to the element type of
    the array, which is [fill_value] itself when that type can hold it,
    and every cell at distance at least [B] from all four edges holds
    what it held before. *)
Theorem clean_boundary_inplace_boundary {V} {array_dtype : dtype V V}
    (array : ref) (B : Z) (fill_value : V) (h : gmap ref (list (list V)))
    (a : list (list V)) (R C : nat) :
  h !! array = Some a → rect R C a → 1 ≤ B → 2 * B ≤ Z.of_nat R → 2 * B ≤ Z.of_nat C →
  ∃ a', clean_boundary_inplace array B fill_value h = Some (array, <[array := a']> h)
    ∧ rect R C a'
    ∧ ∀ i j, (i < R)%nat → (j < C)%nat →
        ((Z.of_nat i < B ∨ Z.of_nat R - B ≤ Z.of_nat i
          ∨ Z.of_nat j < B ∨ Z.of_nat C - B ≤ Z.of_nat j) →
         cell a' i j = Some (astype fill_value)
         ∧ (astype fill_value = fill_value → cell a' i j = Some fill_value))
        ∧ ((B ≤ Z.of_nat i < Z.of_nat R - B ∧ B ≤ Z.of_nat j < Z.of_nat C - B) →
           cell a' i j = cell a i j).
Proof.
  intros Hh Hrect HB HR HC. exists (cleaned B fill_value a).
  split; [by apply clean_boundary_inplace_heap|].
  split; [by apply rect_cleaned|].
  intros i j Hi Hj.
  rewrite cleaned_mask, (rect_shape R C a) by (done || lia). simpl.
  rewrite cell_mask_fill.
  destruct (rect_cell R C a i j Hrect Hi Hj) as [x Hx]. rewrite Hx. simpl.
  pose proof (overwritten_near_edge R C B i j HB HR HC Hi Hj) as Hov.
  destruct (overwritten R C B i j); split; intros Hwhere.
  - split; [done|]. by intros ->.
  - exfalso. destruct Hov as [Hov _]. specialize (Hov eq_refl). lia.
  - exfalso. destruct Hov as [_ Hov]. by specialize (Hov Hwhere).
  - done.
Qed.

Lemma clean_boundary_inplace_boundary_witness :
  ∃ a', clean_boundary_inplace 1%positive 1 0
          {[ 1%positive := [[1;2;3];[4;5;6];[7;8;9]]; 2%positive := [[7]] ]}
        = Some (1%positive, <[1%positive := a']>
            {[ 1%positive := [[1;2;3];[4;5;6];[7;8;9]]; 2%positive := [[7]] ]})
    ∧ cell a' 1 1 = Some 5 ∧ cell a' 0 1 = Some 0.
Proof.
  destruct (clean_boundary_inplace_boundary 1%positive 1 0
              {[ 1%positive := [[1;2;3];[4;5;6];[7;8;9]]; 2%positive := [[7]] ]}
              [[1;2;3];[4;5;6];[7;8;9]] 3 3)
    as (a' & Hcall & _ & Hcells).
  - reflexivity.
  - split; [reflexivity|]. repeat constructor.
  - lia.
  - lia.
  - lia.
  - exists a'. split; [exact Hcall|]. split.
    + rewrite (proj2 (Hcells 1%nat 1%nat ltac:(lia) ltac:(lia))) by lia. reflexivity.
    + apply (proj1 (Hcells 0%nat 1%nat ltac:(lia) ltac:(lia))); [lia|].
      apply int64_holds. lia.
Defined.

(** C4, as the claim words it, fails: [2 ** 63] does not fit an int64
    array, and the boundary cells then hold [- 2 ** 63], not the fill
    value. *)
Lemma fill_value_beyond_dtype :
  ∃ a', clean_boundary_inplace (array_dtype := int64) 1%positive 1 (2 ^ 63)
          {[ 1%positive := [[1;2;3];[4;5;6];[7;8;9]] ]}
        = Some (1%positive, {[ 1%positive := a' ]})
    ∧ rect 3 3 a'
    ∧ cell a' 0 0 = Some (- 2 ^ 63)
    ∧ cell a' 0 0 ≠ Some (2 ^ 63).
Proof.
  eexists. split; [vm_compute; reflexivity|].
  split; [split; [reflexivity|repeat constructor]|].
  split; [reflexivity|]. intros [=].
Qed.

Section BoundaryAlgebra.
Context {W V : Type} {array_dtype : dtype W V}.
Implicit Types (a : list (list V)) (h : gmap ref (list (list V))).

(** C9: cleaning the boundary of an array twice in a row leaves the
    heap, and so the array, exactly as cleaning it once does, whatever
    the array, the width and the fill value. *)
Theorem clean_boundary_inplace_idempotent (array : ref) (b : Z) (v : W) h :
  clean_boundary_inplace array b v h ≫= (λ rh, clean_boundary_inplace rh.1 b v rh.2)
  = clean_boundary_inplace array b v h.
Proof.
  destruct (h !! array) as [a|] eqn:Hh.
  - rewrite (clean_boundary_inplace_heap _ _ _ _ a Hh). simpl.
    rewrite (clean_boundary_inplace_heap _ _ _ _ (cleaned b v a))
      by apply lookup_insert_eq.
    by rewrite insert_insert_eq, cleaned_cleaned.
  - unfold clean_boundary_inplace, setitem. by rewrite Hh.
Qed.

(** With a width of zero, [-boundary_size:] is the slice [0:], the whole
    axis: every cell is overwritten. *)
Lemma cleaned_zero_width (v : W) a :
  cleaned 0 v a = (λ row : list V, const (astype v) <$> row) <$> a.
Proof.
  rewrite cleaned_mask. unfold mask_fill.
  rewrite <- (imap_const (λ row : list V, const (astype v) <$> row)).
  apply imap_ext; intros i row Hrow. unfold const at 1.
  rewrite <- (imap_const (const (astype v))).
  apply imap_ext; intros j x _.
  apply lookup_lt_Some in Hrow.
  assert (overwritten (shape a).1 (shape a).2 0 i j = true) as ->; [|done].
  unfold overwritten, selected, slice_indices, slice_upto, slice_last, adjust_index, shape; simpl.
  rewrite !orb_true_iff, !andb_true_iff, !Z.leb_le, !Z.ltb_lt. lia.
Qed.

End BoundaryAlgebra.

(** C2: with [boundary_size == 0] the call is not a no-op: it
    overwrites every cell of the array with [fill_value] (as the
    element type of the array holds it), as on the array
    [[1, 2], [3, 4]] filled with 0. *)
Theorem clean_boundary_inplace_zero_width :
  (∀ (W V : Type) (array_dtype : dtype W V) (array : ref) (fill_value : W)
     (h : gmap ref (list (list V))),
     clean_boundary_inplace array 0 fill_value h
     = (λ a, (array,
              <[array := (λ row : list V, const (astype fill_value) <$> row) <$> a]> h))
       <$> h !! array)
  ∧ clean_boundary_inplace 1%positive 0 0 {[ 1%positive := [[1;2];[3;4]] ]}
    = Some (1%positive, {[ 1%positive := [[0;0];[0;0]] ]}).
Proof.
  split; [|vm_compute; reflexivity].
  intros W V array_dtype array v h. destruct (h !! array) as [a|] eqn:Hh; simpl.
  - by rewrite (clean_boundary_inplace_heap _ _ _ _ a Hh), cleaned_zero_width.
  - unfold clean_boundary_inplace, setitem. by rewrite Hh.
Qed.

(** ** The methods of the base class *)

(** C7: on a model that does not override them, [drive] and [topple]
    raise [NotImplementedError] when called, leaving the object as it
    was; [dissipate], when not overridden, returns normally and changes
    nothing. *)
Theorem base_methods {X} (cls : subclass X) (s : Simulation X) :
  (drive_override cls = None →
     drive cls s
     = Raise (NotImplementedError "Your model needs to override the drive method!") s)
  ∧ (topple_override cls = None →
     topple cls s
     = Raise (NotImplementedError "Your model needs to override the topple method!") s)
  ∧ (dissipate_override cls = None → dissipate cls s = Ok tt s).
Proof.
  unfold drive, topple, dissipate.
  repeat split; intros ->; reflexivity.
Qed.

Lemma base_methods_witness :
  drive Base (fresh 1 (Some 100) tt)
  = Raise (NotImplementedError "Your model needs to override the drive method!")
      (fresh 1 (Some 100) tt)
  ∧ topple Base (fresh 1 (Some 100) tt)
    = Raise (NotImplementedError "Your model needs to override the topple method!")
        (fresh 1 (Some 100) tt)
  ∧ dissipate Quiet (fresh 1 (Some 100) tt) = Ok tt (fresh 1 (Some 100) tt).
Proof.
  split; [|split].
  - apply (proj1 (base_methods Base (fresh 1 (Some 100) tt))). reflexivity.
  - apply (proj1 (proj2 (base_methods Base (fresh 1 (Some 100) tt)))). reflexivity.
  - apply (proj2 (proj2 (base_methods Quiet (fresh 1 (Some 100) tt)))). reflexivity.
Defined.

(** ** [run] without a cadence *)

(** C10: with [save_every = None], [run] raises [TypeError] while it
    computes the size of the snapshot store.  The object is left exactly
    as it was, whatever the model's [drive] would have done to it: no
    step of the loop has started. *)
Theorem run_save_every_None {X} (cls : subclass X) (fuel : nat) (N_iterations : Z)
    (s : Simulation X) :
  save_every s = None → run cls fuel N_iterations s = Raise TypeError s.
Proof. intros Hnone. unfold run, bind, get, floordiv. by rewrite Hnone. Qed.

Lemma run_save_every_None_witness :
  run OneSite 10 5 (fresh 1 None 0%nat) = Raise TypeError (fresh 1 None 0%nat)
  ∧ drive OneSite (fresh 1 None 0%nat) ≠ Ok tt (fresh 1 None 0%nat).
Proof.
  split.
  - apply (run_save_every_None OneSite 10 5 (fresh 1 None 0%nat)). reflexivity.
  - vm_compute. discriminate.
Defined.

(** ** The relaxation loop *)

Section Relaxation.
Context {X : Type} (cls : subclass X).
Implicit Types (s : Simulation X) (n k : Z).

Lemma array_sum_reset s : array_sum (visited (reset_visited s)) = 0.
Proof.
  unfold array_sum, reset_visited; simpl.
  assert (∀ row : list bool,
    sum_list_with (λ b : bool, if b then 1 else 0)%nat (const false <$> row) = 0%nat) as Hrow.
  { induction row; simpl; auto. }
  induction (visited s) as [|row a IH]; simpl in *; [done|].
  rewrite Hrow. simpl. exact IH.
Qed.

Lemma array_sum_nonneg (a : list (list bool)) : 0 ≤ array_sum a.
Proof. unfold array_sum. lia. Qed.

(** What [AvalancheLoop] returns is what the [while] loop returns,
    started on the object with its mask reset. *)
Lemma AvalancheLoop_relax fuel s r s' :
  AvalancheLoop cls fuel s = Ok r s' ↔
  ∃ n, relax cls fuel 0 (reset_visited s) = Ok n s'
       ∧ r = observables (array_sum (visited s')) n.
Proof.
  unfold AvalancheLoop, bind, modify, get, ret.
  destruct (relax cls fuel 0 (reset_visited s)) as [n s1| |]; split.
  - intros [= <- <-]. eauto.
  - intros (n' & [= <- <-] & ->). done.
  - done.
  - by intros (? & ? & _).
  - done.
  - by intros (? & ? & _).
Qed.

(** One more unit of fuel never changes an answer already given. *)
Lemma relax_fuel_S fuel k s n s' :
  relax cls fuel k s = Ok n s' → relax cls (S fuel) k s = Ok n s'.
Proof.
  revert k s. induction fuel as [|fuel IH]; intros k s; [done|].
  intros Hrun. change (relax cls (S fuel) k s) with
    (bind (topple cls) (λ toppled : bool,
       if toppled then bind (dissipate cls) (λ _, relax cls fuel (k + 1))
       else ret k) s) in Hrun.
  change (relax cls (S (S fuel)) k s) with
    (bind (topple cls) (λ toppled : bool,
       if toppled then bind (dissipate cls) (λ _, relax cls (S fuel) (k + 1))
       else ret k) s).
  unfold bind in *. destruct (topple cls s) as [[] s1| |]; try done.
  destruct (dissipate cls s1) as [[] s2| |]; try done.
  by apply IH.
Qed.

Lemma relax_fuel_le fuel fuel' k s n s' :
  (fuel ≤ fuel')%nat → relax cls fuel k s = Ok n s' → relax cls fuel' k s = Ok n s'.
Proof. induction 1; [done|]. intros. by apply relax_fuel_S, IHle. Qed.

(** The loop follows the engine: from [Relaxing] to [Quiescent]. *)
Lemma relax_engine fuel k s n s' :
  relax cls fuel k s = Ok n s' →
  rtc (engine_step cls) (Relaxing, s, k) (Quiescent, s', n).
Proof.
  revert k s. induction fuel as [|fuel IH]; intros k s; [done|].
  simpl. unfold bind, ret.
  destruct (topple cls s) as [[] s1| |] eqn:Htopple; try done.
  - destruct (dissipate cls s1) as [[] s2| |] eqn:Hdissipate; try done.
    intros Hrest. eapply rtc_l; [by eapply engine_round|]. by apply IH.
  - intros [= <- <-]. apply rtc_once. by apply engine_quiesce.
Qed.

(** And the engine is followed by the loop, given fuel enough. *)
Lemma engine_relax k s n s' :
  rtc (engine_step cls) (Relaxing, s, k) (Quiescent, s', n) →
  ∃ fuel, relax cls fuel k s = Ok n s'.
Proof.
  intros Hrun.
  remember (Relaxing, s, k) as c eqn:Hc.
  remember (Quiescent, s', n) as c' eqn:Hc'.
  revert k s Hc. induction Hrun as [c|c c1 c' Hstep Hrun IH]; intros k s Hc; subst.
  - done.
  - inversion Hstep as [|s0 s1 s2 n0 Htopple Hdissipate|s0 s1 n0 Htopple]; subst.
    + destruct (IH eq_refl _ _ eq_refl) as [fuel Hfuel].
      exists (S fuel). simpl. unfold bind. by rewrite Htopple, Hdissipate.
    + inversion Hrun as [|? c2 ? Hstep2]; subst.
      * exists 1%nat. simpl. unfold bind. by rewrite Htopple.
      * inversion Hstep2.
Qed.

(** The reset of the code is the reset of the engine. *)
Lemma reset_visited_all_false s : reset_visited s = set_visited all_false s.
Proof.
  unfold reset_visited, set_visited, all_false. f_equal.
  apply list_fmap_ext; intros _ row _. simpl.
  induction row as [|b row IH]; simpl; [done|]. f_equal. exact IH.
Qed.

Lemma cell_all_false (mask : list (list bool)) (i j : nat) :
  cell (all_false mask) i j = (λ _, false) <$> cell mask i j.
Proof.
  unfold cell, all_false. rewrite list_lookup_fmap.
  destruct (mask !! i) as [row|]; simpl; [|done].
  revert j. induction row as [|b row IH]; intros [|j]; simpl; try done.
Qed.

(** [visited.sum()] counts the true cells. *)
Lemma array_sum_count (mask : list (list bool)) :
  array_sum mask = Z.of_nat (count_true mask).
Proof.
  unfold array_sum, count_true. f_equal.
  induction mask as [|row mask IH]; simpl; [done|].
  rewrite filter_app, length_app, <- IH. f_equal.
  clear IH. induction row as [|b row IH]; [done|].
  rewrite filter_cons. destruct b.
  - rewrite decide_True by done. simpl. by rewrite IH.
  - rewrite decide_False by done. exact IH.
Qed.

(** The counter of the loop goes up by one per round. *)
Lemma relax_rounds fuel k s n s' :
  relax cls fuel k s = Ok n s' →
  ∃ m, rounds cls s m s' ∧ n = k + Z.of_nat m.
Proof.
  revert k s. induction fuel as [|fuel IH]; intros k s; [done|].
  simpl. unfold bind, ret.
  destruct (topple cls s) as [[] s1| |] eqn:Htopple; try done.
  - destruct (dissipate cls s1) as [[] s2| |] eqn:Hdissipate; try done.
    intros (m & Hrounds & ->)%IH. exists (S m).
    split; [by eapply rounds_more|lia].
  - intros [= <- <-]. exists 0%nat. split; [by apply rounds_rest|lia].
Qed.

End Relaxation.

(** C5: [AvalancheLoop] returns a record exactly when the engine of the
    specification, started in [Idle], reaches [Quiescent]: the mask is
    first reset to all false, every round is a [topple] answering true
    followed by [dissipate] and one more on the counter, and a [topple]
    answering false ends the avalanche; the record then holds the number
    of true cells of the mask and the counter, which is the number of
    rounds made.  A model whose [topple] changes nothing and answers
    false gets size 0 after 0 rounds. *)
Theorem AvalancheLoop_engine {X} (cls : subclass X) (s s' : Simulation X)
    (r : gmap string Z) :
  ((∃ fuel, ∀ fuel', (fuel ≤ fuel')%nat → AvalancheLoop cls fuel' s = Ok r s') ↔
   (∃ n, rtc (engine_step cls) (Idle, s, 0) (Quiescent, s', n)
         ∧ r = {[ "AvalancheSize" := Z.of_nat (count_true (visited s'));
                  "number_of_iterations" := n ]}))
  ∧ (∀ fuel, AvalancheLoop cls fuel s = Ok r s' →
       ∃ k, rounds cls (set_visited all_false s) k s'
         ∧ r !! "number_of_iterations" = Some (Z.of_nat k)
         ∧ r !! "AvalancheSize" = Some (Z.of_nat (count_true (visited s'))))
  ∧ (∀ i j, cell (visited (set_visited all_false s)) i j
            = (λ _, false) <$> cell (visited s) i j)
  ∧ ((∀ s0, topple cls s0 = Ok false s0) →
     ∀ fuel, AvalancheLoop cls (S fuel) s
             = Ok {[ "AvalancheSize" := 0; "number_of_iterations" := 0 ]}
                  (set_visited all_false s)).
Proof.
  split; [split|split; [|split]].
  - intros [fuel Hfuel]. specialize (Hfuel fuel (le_n _)).
    apply AvalancheLoop_relax in Hfuel as (n & Hrelax & ->).
    exists n. split; [|unfold observables; by rewrite array_sum_count].
    eapply rtc_l; [apply engine_start|].
    rewrite <- reset_visited_all_false. by eapply relax_engine.
  - intros (n & Hrun & ->).
    inversion Hrun as [|? c1 ? Hstep Hrest]; subst.
    inversion Hstep; subst.
    rewrite <- reset_visited_all_false in Hrest.
    destruct (engine_relax cls _ _ _ _ Hrest) as [fuel Hfuel].
    exists fuel. intros fuel' Hle. apply AvalancheLoop_relax.
    exists n. split; [by eapply relax_fuel_le|].
    unfold observables. by rewrite array_sum_count.
  - intros fuel (n & Hrelax & ->)%AvalancheLoop_relax.
    apply relax_rounds in Hrelax as (k & Hrounds & ->).
    exists k. rewrite <- reset_visited_all_false. split; [done|].
    unfold observables. rewrite array_sum_count. split; [|done].
    rewrite lookup_insert_ne by done. by rewrite lookup_singleton_eq.
  - intros i j. apply cell_all_false.
  - intros Hquiet fuel. rewrite <- reset_visited_all_false.
    apply AvalancheLoop_relax. exists 0.
    split; [|by rewrite array_sum_reset].
    simpl. unfold bind. by rewrite Hquiet.
Qed.

Lemma AvalancheLoop_engine_witness :
  (∃ fuel, ∀ fuel', (fuel ≤ fuel')%nat →
     AvalancheLoop OneSite fuel' loaded
     = Ok {[ "AvalancheSize" := 1; "number_of_iterations" := 1 ]} relaxed)
  ∧ AvalancheLoop Quiet 1 (fresh 1 (Some 100) tt)
    = Ok {[ "AvalancheSize" := 0; "number_of_iterations" := 0 ]}
         (set_visited all_false (fresh 1 (Some 100) tt)).
Proof.
  split.
  - apply (proj1 (AvalancheLoop_engine OneSite loaded relaxed
                    {[ "AvalancheSize" := 1; "number_of_iterations" := 1 ]})).
    exists 1. split; [|reflexivity].
    eapply rtc_l; [apply engine_start|].
    eapply rtc_l; [eapply engine_round; reflexivity|].
    apply rtc_once. apply engine_quiesce. reflexivity.
  - apply (proj2 (proj2 (proj2 (AvalancheLoop_engine Quiet (fresh 1 (Some 100) tt)
                                  (fresh 1 (Some 100) tt) ∅)))).
    intros s0. reflexivity.
Defined.

(** ** One step of the driving loop *)

Section Step.
Context {X : Type} (cls : subclass X).
Implicit Types (s : Simulation X) (n k i : Z).

Lemma relax_counter fuel k s n s' : relax cls fuel k s = Ok n s' → k ≤ n.
Proof.
  revert k s. induction fuel as [|fuel IH]; intros k s; [done|].
  simpl. unfold bind, ret.
  destruct (topple cls s) as [[] s1| |]; try done.
  - destruct (dissipate cls s1) as [[] s2| |]; try done.
    intros Hrest%IH. lia.
  - intros [= <- _]. lia.
Qed.

(** Saving a snapshot touches the store and nothing else. *)
Lemma save_snapshot_frame i s s' :
  _save_snapshot i s = Ok tt s' →
  data_acquisition s' = data_acquisition s ∧ visited s' = visited s
  ∧ save_every s' = save_every s ∧ values s' = values s.
Proof.
  unfold _save_snapshot, bind, get, floordiv, raise, ret, modify.
  destruct (save_every s) as [c|] eqn:Hc; [|done].
  destruct (c =? 0); [done|].
  destruct (saved_snapshots s) as [z|]; [|done].
  destruct (values s) as [frame|] eqn:Hframe; [|done].
  destruct (zarr_setitem z (i / c) frame); [|done].
  by intros [= <-].
Qed.

(** A step that completes has called [drive], relaxed the lattice, and
    put the record of that avalanche at the end of the list. *)
Lemma run_step_Ok fuel i s s' :
  run_step cls fuel i s = Ok tt s' →
  ∃ s1 s2 r, drive cls s = Ok tt s1 ∧ AvalancheLoop cls fuel s1 = Ok r s2
    ∧ data_acquisition s' = data_acquisition s2 ++ [r]
    ∧ visited s' = visited s2.
Proof.
  unfold run_step. unfold bind at 1.
  destruct (drive cls s) as [[] s1| |] eqn:Hdrive; [|done..].
  unfold bind at 1.
  destruct (AvalancheLoop cls fuel s1) as [r s2| |] eqn:Hloop; [|done..].
  unfold bind at 1, modify at 1. unfold bind at 1, get at 1.
  intros Hsave. exists s1, s2, r. split; [done|]. split; [done|].
  simpl in Hsave. destruct (save_every s2) as [c|]; [|by injection Hsave as <-].
  unfold bind, pymod, ret, raise in Hsave.
  destruct (c =? 0); [done|].
  destruct (i mod c =? 0); [|by injection Hsave as <-].
  by apply save_snapshot_frame in Hsave as (-> & -> & _).
Qed.

End Step.

Lemma elem_of_DataFrame_columns (records : list (gmap string Z)) (column : string) :
  column ∈ DataFrame_columns records ↔ ∃ r, r ∈ records ∧ is_Some (r !! column).
Proof.
  unfold DataFrame_columns. rewrite elem_of_union_list. split.
  - intros (ks & Hks & Hcol). apply list_elem_of_fmap in Hks as (r & -> & Hr).
    exists r. split; [done|]. by apply elem_of_dom.
  - intros (r & Hr & Hcol). exists (dom r). split.
    + apply list_elem_of_fmap. eauto.
    + by apply elem_of_dom.
Qed.

(** Once [drive] and the avalanche have returned, the step puts the
    record at the end of the list, and whatever happens to the snapshot
    afterwards, the record stays there. *)
Lemma run_step_final {X} (cls : subclass X) (fuel : nat) (i : Z)
    (s s1 s2 : Simulation X) (r : gmap string Z) :
  drive cls s = Ok tt s1 → AvalancheLoop cls fuel s1 = Ok r s2 →
  ∃ s', final_state (run_step cls fuel i s) = Some s'
    ∧ data_acquisition s' = data_acquisition s2 ++ [r]
    ∧ visited s' = visited s2.
Proof.
  intros Hdrive Hloop. unfold run_step, bind at 1. rewrite Hdrive.
  unfold bind at 1. rewrite Hloop.
  unfold bind at 1, modify at 1. unfold bind at 1, get at 1.
  set (s3 := set_data_acquisition (λ l, l ++ [r]) s2).
  destruct (save_every s3) as [c|] eqn:Hevery; [|by exists s3].
  unfold bind at 1, pymod. destruct (c =? 0) eqn:Hc; [by exists s3|].
  unfold ret at 1. destruct (i `mod` c =? 0); [|by exists s3].
  unfold _save_snapshot, bind, get, floordiv, ret, raise, modify.
  rewrite Hevery, Hc.
  destruct (saved_snapshots s3) as [z|]; [|by exists s3].
  destruct (values s3) as [frame|]; [|by exists s3].
  destruct (zarr_setitem z (i / c) frame) as [z'|]; [|by exists s3].
  by exists (set_saved_snapshots z' s3).
Qed.

(** C3, as the code has it: in a step whose [drive] and avalanche
    return, the record appended holds the avalanche size, the number of
    true cells of the visited mask, under the key [AvalancheSize], and
    the number of topple rounds the avalanche took under
    [number_of_iterations]; it has no other key, and stays the last
    record whether or not the snapshot of the step succeeds.  The table
    made of the accumulated records therefore has columns named
    [AvalancheSize] and [number_of_iterations]. *)
Theorem run_step_record_keys {X} (cls : subclass X) (fuel : nat) (i : Z)
    (s s1 s2 : Simulation X) (r : gmap string Z) :
  drive cls s = Ok tt s1 →
  AvalancheLoop cls fuel s1 = Ok r s2 →
  ∃ n s', rounds cls (set_visited all_false s1) n s2
    ∧ r = {[ "AvalancheSize" := Z.of_nat (count_true (visited s2));
             "number_of_iterations" := Z.of_nat n ]}
    ∧ final_state (run_step cls fuel i s) = Some s'
    ∧ last (data_acquisition s') = Some r
    ∧ visited s' = visited s2
    ∧ r !! "AvalancheSize" = Some (Z.of_nat (count_true (visited s2)))
    ∧ r !! "number_of_iterations" = Some (Z.of_nat n)
    ∧ dom r = {[ "AvalancheSize"; "number_of_iterations" ]}
    ∧ "AvalancheSize" ∈ DataFrame_columns (data_acquisition s')
    ∧ "number_of_iterations" ∈ DataFrame_columns (data_acquisition s').
Proof.
  intros Hdrive Hloop.
  destruct (run_step_final cls fuel i s s1 s2 r Hdrive Hloop)
    as (s' & Hfinal & Hdata & Hvisited).
  apply AvalancheLoop_relax in Hloop as (n & Hrelax & ->).
  apply relax_rounds in Hrelax as (k & Hrounds & ->).
  rewrite reset_visited_all_false in Hrounds.
  unfold observables in *. rewrite array_sum_count in *. rewrite Z.add_0_l in *.
  set (r := {[ "AvalancheSize" := Z.of_nat (count_true (visited s2));
               "number_of_iterations" := Z.of_nat k ]} : gmap string Z) in *.
  assert (r !! "AvalancheSize" = Some (Z.of_nat (count_true (visited s2)))) as Hsize
    by done.
  assert (r !! "number_of_iterations" = Some (Z.of_nat k)) as Hcount.
  { unfold r. rewrite lookup_insert_ne by done. by rewrite lookup_singleton_eq. }
  assert (∀ column, is_Some (r !! column) →
    column ∈ DataFrame_columns (data_acquisition s')) as Hcolumn.
  { intros column Hsome. apply elem_of_DataFrame_columns. exists r. split; [|exact Hsome].
    rewrite Hdata. apply elem_of_app. right. by apply list_elem_of_singleton. }
  exists k, s'. split; [done|]. split; [done|]. split; [done|].
  split; [by rewrite Hdata, last_snoc|]. split; [done|].
  split; [done|]. split; [done|].
  split; [|split; apply Hcolumn; eauto].
  apply set_eq; intros column.
  rewrite elem_of_dom, elem_of_union, !elem_of_singleton.
  destruct (decide (column = "AvalancheSize")) as [->|Hne1]; [by split; eauto|].
  unfold r. rewrite lookup_insert_ne by done.
  destruct (decide (column = "number_of_iterations")) as [->|Hne2];
    [rewrite lookup_singleton_eq; by split; eauto|].
  rewrite lookup_singleton_ne by done.
  split; [by intros [? ?]|by intros [?|?]].
Qed.

Lemma run_step_record_keys_witness :
  ∃ n s', rounds OneSite (set_visited all_false (set_extra 1%nat
                            (set_values [[0;0;0];[0;5;0];[0;0;0]] loaded))) n
            (set_extra 1%nat (set_values [[0;0;0];[0;1;0];[0;0;0]] relaxed))
    ∧ ({[ "AvalancheSize" := 1; "number_of_iterations" := 1 ]} : gmap string Z)
      = {[ "AvalancheSize" :=
             Z.of_nat (count_true (visited
               (set_extra 1%nat (set_values [[0;0;0];[0;1;0];[0;0;0]] relaxed))));
           "number_of_iterations" := Z.of_nat n ]}
    ∧ final_state (run_step OneSite 5 1 loaded) = Some s'
    ∧ last (data_acquisition s')
      = Some {[ "AvalancheSize" := 1; "number_of_iterations" := 1 ]}.
Proof.
  destruct (run_step_record_keys OneSite 5 1 loaded
              (set_extra 1%nat (set_values [[0;0;0];[0;5;0];[0;0;0]] loaded))
              (set_extra 1%nat (set_values [[0;0;0];[0;1;0];[0;0;0]] relaxed))
              {[ "AvalancheSize" := 1; "number_of_iterations" := 1 ]})
    as (n & s' & Hrounds & Hrecord & Hfinal & Hlast & _).
  - reflexivity.
  - reflexivity.
  - by exists n, s'.
Defined.

(** C3, as the claim words it, fails: the record of a step has no key
    [avalanche_size], and neither has the table a column of that name. *)
Lemma record_has_no_avalanche_size_key :
  ∃ s' r, run_step OneSite 5 1 loaded = Ok tt s'
    ∧ last (data_acquisition s') = Some r
    ∧ r = {[ "AvalancheSize" := 1; "number_of_iterations" := 1 ]}
    ∧ r !! "avalanche_size" = None
    ∧ "avalanche_size" ∉ DataFrame_columns (data_acquisition s').
Proof.
  eexists. eexists. split; [reflexivity|]. split; [reflexivity|].
  split; [reflexivity|]. split; [reflexivity|].
  refine (bool_decide_unpack _ _). vm_compute. exact I.
Qed.

(** ** Determinism of the relaxation loop *)

Section Determinism.
Context {X : Type} (cls : subclass X).
Hypothesis topple_determined : lattice_determined (topple cls).
Hypothesis dissipate_determined : lattice_determined (dissipate cls).
Implicit Types (s : Simulation X).

Lemma agree_reset s1 s2 : agree s1 s2 → agree (reset_visited s1) (reset_visited s2).
Proof. intros [Hvalues Hvisited]. split; simpl; [done|]. by rewrite Hvisited. Qed.

(** Two loops started on agreeing objects stay in step: same answers,
    same masks, agreeing objects at the end. *)
Lemma relax_agree fuel k s1 s2 :
  agree s1 s2 →
  outcome_agree (relax cls fuel k s1) (relax cls fuel k s2)
  ∧ relax_visited cls fuel s1 = relax_visited cls fuel s2.
Proof.
  revert k s1 s2. induction fuel as [|fuel IH]; intros k s1 s2 Hagree; [done|].
  simpl. unfold bind, ret.
  pose proof (topple_determined s1 s2 Hagree) as Htopple.
  destruct (topple cls s1) as [t1 s1'| |], (topple cls s2) as [t2 s2'| |];
    simpl in Htopple; try done.
  destruct Htopple as [<- Hagree']. destruct t1.
  - pose proof (dissipate_determined s1' s2' Hagree') as Hdissipate.
    destruct Hagree' as [_ Hvisited']. rewrite Hvisited'.
    destruct (dissipate cls s1') as [[] s1''| |], (dissipate cls s2') as [[] s2''| |];
      simpl in Hdissipate; try done.
    destruct Hdissipate as [_ Hagree''].
    destruct (IH (k + 1) s1'' s2'' Hagree'') as [Hout Htrace].
    split; [done|]. destruct Hagree'' as [_ ->]. by rewrite Htrace.
  - simpl. split; [done|]. by destruct Hagree' as [_ ->].
Qed.

End Determinism.

(** C8: with a [topple] and a [dissipate] decided by the lattice and
    the mask, two runs of [AvalancheLoop] from objects with equal
    [values] and equal visited masks go through the same sequence of
    masks and end alike: both return, with equal avalanche size and
    equal iteration count and again equal lattices and masks, or both
    raise the same exception, or both are still running when the fuel
    is spent. *)
Theorem AvalancheLoop_deterministic {X} (cls : subclass X) (fuel : nat)
    (s1 s2 : Simulation X) :
  lattice_determined (topple cls) →
  lattice_determined (dissipate cls) →
  agree s1 s2 →
  visited_updates cls fuel s1 = visited_updates cls fuel s2
  ∧ outcome_agree (AvalancheLoop cls fuel s1) (AvalancheLoop cls fuel s2)
  ∧ ∀ r1 r2 s1' s2',
      AvalancheLoop cls fuel s1 = Ok r1 s1' →
      AvalancheLoop cls fuel s2 = Ok r2 s2' →
      r1 !! "AvalancheSize" = r2 !! "AvalancheSize"
      ∧ r1 !! "number_of_iterations" = r2 !! "number_of_iterations".
Proof.
  intros Htopple Hdissipate Hagree.
  apply agree_reset in Hagree as Hreset.
  destruct (relax_agree cls Htopple Hdissipate fuel 0 _ _ Hreset) as [Hout Htrace].
  assert (outcome_agree (AvalancheLoop cls fuel s1) (AvalancheLoop cls fuel s2)) as Hloop.
  { unfold AvalancheLoop, bind, modify, get, ret.
    destruct (relax cls fuel 0 (reset_visited s1)) as [n1 s1'| |],
             (relax cls fuel 0 (reset_visited s2)) as [n2 s2'| |];
      simpl in Hout; try done.
    destruct Hout as [<- Hagree']. split; [|done].
    by destruct Hagree' as [_ ->]. }
  split; [|split].
  - unfold visited_updates. destruct Hreset as [_ ->]. by rewrite Htrace.
  - done.
  - intros r1 r2 s1' s2' H1 H2. rewrite H1, H2 in Hloop.
    destruct Hloop as [-> _]. done.
Qed.

Lemma OneSite_topple_determined : lattice_determined (topple OneSite).
Proof.
  intros s1 s2 Hagree. pose proof Hagree as [Hvalues Hvisited].
  unfold topple; simpl. rewrite Hvalues.
  destruct (values s2) as [v|] eqn:Hv; simpl; [|done].
  destruct (cell v 1 1) as [x|]; simpl; [|done].
  destruct (4 <=? x); simpl; [|done].
  split; [done|]. split; simpl; [done|]. by rewrite Hvisited.
Qed.

Lemma OneSite_dissipate_determined : lattice_determined (dissipate OneSite).
Proof.
  intros s1 s2 Hagree. pose proof Hagree as [Hvalues Hvisited].
  unfold dissipate; simpl. rewrite Hvalues.
  destruct (values s2) as [v|] eqn:Hv; simpl; [|done].
  split; [done|]. by split.
Qed.

Lemma AvalancheLoop_deterministic_witness :
  visited_updates OneSite 5 loaded = visited_updates OneSite 5 (set_extra 7%nat loaded)
  ∧ outcome_agree (AvalancheLoop OneSite 5 loaded)
      (AvalancheLoop OneSite 5 (set_extra 7%nat loaded))
  ∧ ∀ r1 r2 s1' s2',
      AvalancheLoop OneSite 5 loaded = Ok r1 s1' →
      AvalancheLoop OneSite 5 (set_extra 7%nat loaded) = Ok r2 s2' →
      r1 !! "AvalancheSize" = r2 !! "AvalancheSize"
      ∧ r1 !! "number_of_iterations" = r2 !! "number_of_iterations".
Proof.
  apply (AvalancheLoop_deterministic OneSite 5 loaded (set_extra 7%nat loaded)).
  - exact OneSite_topple_determined.
  - exact OneSite_dissipate_determined.
  - split; reflexivity.
Defined.

(** ** Snapshots *)

Lemma fresh_init {X} (L : Z) (save_every : option Z) (x : X) (s : Simulation X) :
  __init__ L save_every x = inr s →
  fresh L save_every x
  = set_values (replicate (Z.to_nat (L + 2 * BOUNDARY_SIZE))
                  (replicate (Z.to_nat (L + 2 * BOUNDARY_SIZE)) 0)) s.
Proof.
  unfold __init__. destruct (L + 2 * BOUNDARY_SIZE <? 0); [done|].
  by intros [= <-].
Qed.

(** When the cadence [c] does not divide [N > c], the step [c * (N // c)]
    is a step of the loop, it saves a snapshot, and the index of that
    snapshot is the number of frames allocated: the write is refused. *)
Lemma save_snapshot_overflow {X} (N c : Z) (s : Simulation X) (frame : list (list Z)) :
  1 ≤ c → c < N → N `mod` c ≠ 0 →
  save_every s = Some c → values s = Some frame →
  saved_snapshots s
  = Some (zarr_open (snapshot_capacity N c) (L_with_boundary s) (L_with_boundary s)) →
  0 ≤ c * (N / c) < N
  ∧ (c * (N / c)) `mod` c = 0
  ∧ snapshot_capacity N c ≤ (c * (N / c)) / c
  ∧ _save_snapshot (c * (N / c)) s = Raise IndexError s.
Proof.
  intros Hc HN Hmod Hevery Hvalues Hstore.
  assert (1 ≤ N / c) as Hq by (apply Z.div_le_lower_bound; lia).
  assert (c * (N / c) / c = N / c) as Hindex
    by (rewrite Z.mul_comm; apply Z.div_mul; lia).
  assert (snapshot_capacity N c = N / c) as Hcap by (unfold snapshot_capacity; lia).
  pose proof (Z.mod_pos_bound N c ltac:(lia)) as Hbound.
  pose proof (Z.div_mod N c ltac:(lia)) as Hdivmod.
  split; [nia|]. split; [rewrite Z.mul_comm; apply Z.mod_mul; lia|].
  split; [lia|].
  unfold _save_snapshot, bind, get, floordiv, ret, raise.
  rewrite Hevery, Hstore, Hvalues.
  destruct (Z.eqb_spec c 0) as [|_]; [lia|].
  rewrite Hindex, Hcap. unfold zarr_setitem, zarr_open; simpl.
  rewrite length_replicate, Z2Nat.id by lia.
  destruct (Z.ltb_spec (N / c) 0); [lia|].
  rewrite Z.ltb_irrefl, andb_false_r. done.
Qed.

(** C1: [run(5)] with [save_every = 2] on a model that never topples
    allocates [max(5 // 2, 1) = 2] frames but reaches three saving
    steps, 0, 2 and 4; the write of step 4 goes to index 2, outside the
    store, and [run] ends there with [IndexError]. *)
Theorem run_snapshot_overflow :
  snapshot_capacity 5 2 = 2
  ∧ snapshot_steps 5 2 = [0; 2; 4]
  ∧ 4 / 2 = snapshot_capacity 5 2
  ∧ ∃ s', run Quiet 1 5 (fresh 1 (Some 2) tt) = Raise IndexError s'
      ∧ (length ∘ frames <$> saved_snapshots s') = Some 2%nat
      ∧ length (data_acquisition s') = 5%nat.
Proof.
  split; [reflexivity|]. split; [reflexivity|]. split; [reflexivity|].
  eexists. split; [vm_compute; reflexivity|]. split; reflexivity.
Qed.

(** C6: [run(5)] with [save_every = 3] on a freshly built model that
    never topples does not record five steps: the snapshot of step 3
    falls outside the one frame allocated, [run] ends with [IndexError],
    and the list holds four records. *)
Theorem run_records_cut_short :
  ∃ s', run Quiet 1 5 (fresh 1 (Some 3) tt) = Raise IndexError s'
    ∧ data_acquisition (fresh 1 (Some 3) tt) = []
    ∧ data_acquisition s'
      = [observables 0 0; observables 0 0; observables 0 0; observables 0 0]
    ∧ length (data_acquisition s') ≠ 5%nat.
Proof.
  eexists. split; [vm_compute; reflexivity|].
  split; [reflexivity|]. split; [reflexivity|].
  simpl. lia.
Qed.

(** ** The driving loop when the cadence fits *)

Lemma elem_of_range (n i : Z) : i ∈ range n ↔ 0 ≤ i < n.
Proof.
  unfold range. rewrite list_elem_of_fmap. split.
  - intros (k & -> & Hk). apply elem_of_seq in Hk. lia.
  - intros Hi. exists (Z.to_nat i). split; [lia|]. apply elem_of_seq. lia.
Qed.

(** The saving steps stay inside the store when the run is shorter than
    one cadence or a whole number of them. *)
Lemma snapshot_index_fits (N c i : Z) :
  1 ≤ c → N < c ∨ N `mod` c = 0 → 0 ≤ i < N → i `mod` c = 0 →
  0 ≤ i / c < snapshot_capacity N c.
Proof.
  intros Hc Hfit Hi Hmod. unfold snapshot_capacity.
  pose proof (Z.div_mod i c ltac:(lia)) as Hi_eq.
  pose proof (Z.div_mod N c ltac:(lia)) as HN_eq.
  pose proof (Z.mod_pos_bound N c ltac:(lia)) as HN_bound.
  split; [apply Z.div_pos; lia|].
  destruct Hfit as [Hshort|Hwhole].
  - rewrite Z.div_small by lia. lia.
  - assert (i / c < N / c); [|lia]. nia.
Qed.

Section CadenceFits.
Context {X : Type} (cls : subclass X) (fuel : nat) (c : Z).

(** What the model keeps true of the object between steps. *)
Variable inv : Simulation X → Prop.
Hypothesis inv_values : ∀ s, inv s → is_Some (values s).
Hypothesis inv_data : ∀ s f, inv s → inv (set_data_acquisition f s).
Hypothesis inv_store : ∀ s z, inv s → inv (set_saved_snapshots z s).

(** Every avalanche ends within the fuel, and the model's methods leave
    the records, the cadence and the store alone. *)
Hypothesis step_ends : ∀ s, inv s →
  ∃ r s2, bind (drive cls) (λ _, AvalancheLoop cls fuel) s = Ok r s2
    ∧ inv s2
    ∧ data_acquisition s2 = data_acquisition s
    ∧ save_every s2 = save_every s
    ∧ saved_snapshots s2 = saved_snapshots s.

Lemma for_each_run_step (capacity : Z) (steps : list Z) (s : Simulation X) :
  c ≠ 0 →
  inv s → save_every s = Some c →
  (∃ z, saved_snapshots s = Some z ∧ Z.of_nat (length (frames z)) = capacity) →
  (∀ i, i ∈ steps → i `mod` c = 0 → 0 ≤ i / c < capacity) →
  ∃ s' records,
    for_each (run_step cls fuel) steps s = Ok tt s'
    ∧ data_acquisition s' = data_acquisition s ++ records
    ∧ length records = length steps
    ∧ Forall record_ok records.
Proof.
  intros Hc. revert s.
  induction steps as [|i steps IH]; intros s Hinv Hevery (z & Hstore & Hlen) Hfits.
  { exists s, []. by rewrite app_nil_r. }
  destruct (step_ends s Hinv) as (r & s2 & Hstep & Hinv2 & Hdata2 & Hevery2 & Hstore2).
  unfold bind in Hstep.
  destruct (drive cls s) as [[] s1| |] eqn:Hdrive; try done.
  pose proof Hstep as Hloop.
  apply AvalancheLoop_relax in Hloop as (n & Hrelax & Hr).
  apply relax_counter in Hrelax.
  set (s3 := set_data_acquisition (λ l, l ++ [r]) s2).
  assert (∃ s4, run_step cls fuel i s = Ok tt s4 ∧ inv s4
            ∧ data_acquisition s4 = data_acquisition s ++ [r]
            ∧ save_every s4 = Some c
            ∧ ∃ z4, saved_snapshots s4 = Some z4
                ∧ Z.of_nat (length (frames z4)) = capacity)
    as (s4 & Hrun & Hinv4 & Hdata4 & Hevery4 & Hstore4).
  { unfold run_step, bind at 1. rewrite Hdrive.
    unfold bind at 1. rewrite Hstep.
    unfold bind at 1, modify at 1. unfold bind at 1, get at 1. fold s3.
    assert (save_every s3 = Some c) as Hevery3 by (simpl; congruence).
    rewrite Hevery3. unfold bind at 1, pymod.
    destruct (Z.eqb_spec c 0) as [|_]; [done|]. unfold ret at 1.
    destruct (Z.eqb_spec (i `mod` c) 0) as [Hmod|_].
    - unfold _save_snapshot, bind, get, floordiv, ret. rewrite Hevery3.
      destruct (Z.eqb_spec c 0) as [|_]; [done|].
      assert (saved_snapshots s3 = Some z) as -> by (simpl; congruence).
      destruct (inv_values s2 Hinv2) as [frame Hframe].
      assert (values s3 = Some frame) as -> by done.
      unfold zarr_setitem. rewrite Hlen.
      destruct (Hfits i ltac:(left) Hmod) as [Hlo Hhi].
      destruct (Z.ltb_spec (i / c) 0); [lia|].
      destruct (Z.leb_spec 0 (i / c)); [|lia].
      destruct (Z.ltb_spec (i / c) capacity); [|lia]. simpl.
      eexists. split; [reflexivity|].
      split; [by apply inv_store, inv_data|].
      split; [simpl; by rewrite Hdata2|]. split; [done|].
      eexists. split; [reflexivity|]. simpl. by rewrite length_insert.
    - exists s3. split; [done|]. split; [by apply inv_data|].
      split; [simpl; by rewrite Hdata2|]. split; [done|].
      exists z. split; [simpl; congruence|done]. }
  destruct (IH s4 Hinv4 Hevery4 Hstore4) as (s' & records & Hrest & Hdata' & Hlen' & Hok).
  { intros j Hj. apply Hfits. by right. }
  exists s', (r :: records). split.
  { simpl. unfold bind. by rewrite Hrun. }
  split; [by rewrite Hdata', Hdata4, <- app_assoc|].
  split; [simpl; by rewrite Hlen'|].
  constructor; [|done].
  exists (array_sum (visited s2)), n. split; [done|]. split; [apply array_sum_nonneg|done].
Qed.

(** With the cadence fitting the number of steps, [run(N)] returns and
    has appended [N] records, in step order, each holding a nonnegative
    size and a nonnegative count. *)
Lemma run_records (N : Z) (s : Simulation X) :
  1 ≤ c → N < c ∨ N `mod` c = 0 →
  inv s → save_every s = Some c →
  ∃ s' records,
    run cls fuel N s = Ok tt s'
    ∧ data_acquisition s' = data_acquisition s ++ records
    ∧ length records = Z.to_nat N
    ∧ Forall record_ok records.
Proof.
  intros Hc Hfit Hinv Hevery.
  destruct (inv_values s Hinv) as [frame Hframe].
  set (z := zarr_open (snapshot_capacity N c) (L_with_boundary s) (L_with_boundary s)).
  destruct (for_each_run_step (snapshot_capacity N c) (range N)
              (set_saved_snapshots z s)) as (s' & records & Hloop & Hdata & Hlen & Hok).
  - lia.
  - by apply inv_store.
  - done.
  - exists z. split; [done|]. unfold z, zarr_open; simpl.
    rewrite length_replicate. unfold snapshot_capacity. lia.
  - intros i Hi%elem_of_range Hmod. by apply snapshot_index_fits.
  - exists s', records. split; [|split; [done|split; [|done]]].
    + unfold run, bind at 1, get at 1. rewrite Hevery. unfold bind at 1, floordiv.
      destruct (Z.eqb_spec c 0) as [|_]; [lia|]. unfold ret at 1.
      rewrite Hframe. unfold bind, modify. exact Hloop.
    + rewrite Hlen. unfold range. by rewrite length_fmap, length_seq.
Qed.

End CadenceFits.

(** The model that never topples meets these conditions. *)
Lemma Quiet_run_records (N c : Z) :
  1 ≤ c → N < c ∨ N `mod` c = 0 →
  ∃ s' records,
    run Quiet 1 N (fresh 1 (Some c) tt) = Ok tt s'
    ∧ data_acquisition s' = records
    ∧ length records = Z.to_nat N
    ∧ Forall record_ok records.
Proof.
  intros Hc Hfit.
  apply (run_records Quiet 1 c (λ s, is_Some (values s))); try done.
  intros s Hvalues. eexists _, _. split; [reflexivity|]. done.
Qed.

(** * Further properties *)

(** ** Boundary cleaning, any width *)

Section BoundaryMore.
Context {W V : Type} {array_dtype : dtype W V}.
Implicit Types (a : list (list V)) (h : gmap ref (list (list V))).

Lemma slice_upto_selected (len : nat) (b : Z) (i : nat) :
  1 ≤ b → selected (slice_indices (slice_upto b) len) i = true
          ↔ (Z.of_nat i < b ∧ (i < len)%nat).
Proof.
  intros Hb. unfold selected, slice_indices, slice_upto, adjust_index; simpl.
  rewrite andb_true_iff, Z.leb_le, Z.ltb_lt.
  destruct (Z.ltb_spec b 0); lia.
Qed.

Lemma slice_last_selected (len : nat) (b : Z) (i : nat) :
  1 ≤ b → selected (slice_indices (slice_last b) len) i = true
          ↔ (Z.of_nat len - b ≤ Z.of_nat i ∧ (i < len)%nat).
Proof.
  intros Hb. unfold selected, slice_indices, slice_last, adjust_index; simpl.
  rewrite andb_true_iff, Z.leb_le, Z.ltb_lt.
  destruct (Z.ltb_spec (- b) 0); lia.
Qed.

(** The cells reached by a width of at least one, inside the array. *)
Lemma overwritten_iff (R C : nat) (b : Z) (i j : nat) :
  1 ≤ b →
  overwritten R C b i j = true ↔
  ((Z.of_nat i < b ∨ Z.of_nat R - b ≤ Z.of_nat i) ∧ (i < R)%nat)
  ∨ ((Z.of_nat j < b ∨ Z.of_nat C - b ≤ Z.of_nat j) ∧ (j < C)%nat).
Proof.
  intros Hb. unfold overwritten.
  rewrite !orb_true_iff, !slice_upto_selected, !slice_last_selected by done. lia.
Qed.

(** X1: whatever the width, cleaning writes through the reference and
    returns it, keeps the shape of the array, and leaves in every cell
    either what was there or [fill_value] as converted to the element
    type of the array. *)
Theorem clean_boundary_inplace_shape (array : ref) (b : Z) (fill_value : W) h a :
  h !! array = Some a →
  ∃ a', clean_boundary_inplace array b fill_value h = Some (array, <[array := a']> h)
    ∧ shape a' = shape a
    ∧ (∀ R C, rect R C a → rect R C a')
    ∧ ∀ i j, cell a' i j = cell a i j
             ∨ (is_Some (cell a i j) ∧ cell a' i j = Some (astype fill_value)).
Proof.
  intros Hh. exists (cleaned b fill_value a).
  split; [by apply clean_boundary_inplace_heap|].
  split; [apply shape_cleaned|]. split; [intros R C; apply rect_cleaned|].
  intros i j. rewrite cleaned_mask, cell_mask_fill.
  destruct (cell a i j) as [x|]; simpl; [|by left].
  destruct (overwritten _ _ b i j); [right; eauto|by left].
Qed.

(** X2: a width of at least half a side reaches every cell: the whole
    array is filled with [fill_value] as converted to the element type
    of the array, and nothing is raised. *)
Theorem clean_boundary_inplace_wide (array : ref) (B : Z) (fill_value : W) h a
    (R C : nat) :
  h !! array = Some a → rect R C a → 1 ≤ B →
  Z.of_nat R ≤ 2 * B ∨ Z.of_nat C ≤ 2 * B →
  clean_boundary_inplace array B fill_value h
  = Some (array,
          <[array := (λ row : list V, const (astype fill_value) <$> row) <$> a]> h).
Proof.
  intros Hh Hrect HB Hwide.
  rewrite (clean_boundary_inplace_heap _ _ _ _ a Hh). do 3 f_equal.
  rewrite cleaned_mask. unfold mask_fill.
  rewrite <- (imap_const (λ row : list V, const (astype fill_value) <$> row)).
  apply imap_ext; intros i row Hrow. unfold const at 1.
  rewrite <- (imap_const (const (astype fill_value))).
  apply imap_ext; intros j x Hx.
  assert (i < R)%nat as Hi by (destruct Hrect as [<- _]; by eapply lookup_lt_Some).
  assert (j < C)%nat as Hj.
  { destruct Hrect as [_ Hrows]. rewrite Forall_lookup in Hrows.
    rewrite <- (Hrows _ _ Hrow). by eapply lookup_lt_Some. }
  rewrite (rect_shape R C a) by (done || lia). simpl.
  assert (overwritten R C B i j = true) as ->; [|done].
  apply overwritten_iff; lia.
Qed.

(** X3: cleaning with one width and then with another is cleaning once
    with the larger of the two. *)
Theorem clean_boundary_inplace_max (array : ref) (b1 b2 : Z) (v : W) h :
  1 ≤ b1 → 1 ≤ b2 →
  clean_boundary_inplace array b1 v h ≫= (λ rh, clean_boundary_inplace rh.1 b2 v rh.2)
  = clean_boundary_inplace array (Z.max b1 b2) v h.
Proof.
  intros H1 H2. destruct (h !! array) as [a|] eqn:Hh.
  - rewrite !(clean_boundary_inplace_heap _ _ _ _ a Hh). simpl.
    rewrite (clean_boundary_inplace_heap _ _ _ _ (cleaned b1 v a))
      by apply lookup_insert_eq.
    rewrite insert_insert_eq. do 3 f_equal.
    rewrite (cleaned_mask b2), shape_cleaned, (cleaned_mask b1), mask_fill_twice.
    rewrite (cleaned_mask (Z.max b1 b2)).
    apply mask_fill_ext; intros i j.
    apply eq_true_iff_eq.
    rewrite orb_true_iff, !overwritten_iff by lia. lia.
  - unfold clean_boundary_inplace, setitem. by rewrite Hh.
Qed.

End BoundaryMore.

Lemma clean_boundary_inplace_shape_witness :
  ∃ a', clean_boundary_inplace 1%positive (-1) (2 ^ 63)
          {[ 1%positive := [[1;2;3];[4;5;6];[7;8;9]] ]}
        = Some (1%positive, <[1%positive := a']> {[ 1%positive := [[1;2;3];[4;5;6];[7;8;9]] ]})
    ∧ shape a' = (3%nat, 3%nat)
    ∧ (cell a' 1 1 = Some 5 ∨ cell a' 1 1 = Some (- 2 ^ 63)).
Proof.
  destruct (clean_boundary_inplace_shape 1%positive (-1) (2 ^ 63)
              {[ 1%positive := [[1;2;3];[4;5;6];[7;8;9]] ]} [[1;2;3];[4;5;6];[7;8;9]])
    as (a' & Hcall & Hshape & _ & Hcells); [reflexivity|].
  exists a'. split; [exact Hcall|]. split; [exact Hshape|].
  destruct (Hcells 1%nat 1%nat) as [->|[_ ->]]; [by left|by right].
Defined.

Lemma clean_boundary_inplace_wide_witness :
  clean_boundary_inplace 1%positive 2 (2 ^ 63) {[ 1%positive := [[1;2;3];[4;5;6];[7;8;9]] ]}
  = Some (1%positive,
          <[1%positive := (λ row : list Z, const (- 2 ^ 63) <$> row)
                            <$> [[1;2;3];[4;5;6];[7;8;9]]]>
            {[ 1%positive := [[1;2;3];[4;5;6];[7;8;9]] ]}).
Proof.
  rewrite (clean_boundary_inplace_wide 1%positive 2 (2 ^ 63) _ [[1;2;3];[4;5;6];[7;8;9]] 3 3).
  - vm_compute. reflexivity.
  - reflexivity.
  - split; [reflexivity|]. repeat constructor.
  - lia.
  - left. lia.
Defined.

Lemma clean_boundary_inplace_max_witness :
  clean_boundary_inplace 1%positive 1 0
    {[ 1%positive := [[1;1;1;1;1];[1;1;1;1;1];[1;1;1;1;1];[1;1;1;1;1];[1;1;1;1;1]] ]}
    ≫= (λ rh, clean_boundary_inplace rh.1 2 0 rh.2)
  = Some (1%positive,
          {[ 1%positive := [[0;0;0;0;0];[0;0;0;0;0];[0;0;1;0;0];[0;0;0;0;0];[0;0;0;0;0]] ]}).
Proof.
  rewrite (clean_boundary_inplace_max 1%positive 1 2 0
             {[ 1%positive := [[1;1;1;1;1];[1;1;1;1;1];[1;1;1;1;1];[1;1;1;1;1];[1;1;1;1;1]] ]})
    by lia.
  vm_compute. reflexivity.
Defined.

(** ** The array that [plot_state] shows *)

Section Cropping.
Context {V : Type}.
Implicit Types (a : list (list V)).

Lemma lookup_between {A} (lohi : Z * Z) (l : list A) (i : nat) :
  between lohi l !! i
  = if decide (i < Z.to_nat (lohi.2 - lohi.1))%nat then l !! (Z.to_nat lohi.1 + i)%nat
    else None.
Proof.
  unfold between. rewrite lookup_take. case_decide; [|done]. by rewrite lookup_drop.
Qed.

Lemma cell_getitem rows cols a i j :
  cell (getitem rows cols a) i j
  = let r := slice_indices rows (shape a).1 in
    let c := slice_indices cols (shape a).2 in
    if decide ((i < Z.to_nat (r.2 - r.1))%nat ∧ (j < Z.to_nat (c.2 - c.1))%nat)
    then cell a (Z.to_nat r.1 + i) (Z.to_nat c.1 + j)
    else None.
Proof.
  unfold cell, getitem. simpl. rewrite list_lookup_fmap, lookup_between.
  repeat case_decide; try done; try tauto.
  - destruct (a !! _) as [row|]; simpl; [|done].
    rewrite lookup_between. case_decide; [done|tauto].
  - destruct (a !! _) as [row|]; simpl; [|done].
    rewrite lookup_between. case_decide; [tauto|done].
Qed.

(** A mask that spares the cells a read selects does not change what
    the read returns. *)
Lemma getitem_mask_fill rows cols (m : nat → nat → bool) (v : V) a :
  (∀ i j,
     let r := slice_indices rows (shape a).1 in
     let c := slice_indices cols (shape a).2 in
     (i < Z.to_nat (r.2 - r.1))%nat → (j < Z.to_nat (c.2 - c.1))%nat →
     m (Z.to_nat r.1 + i)%nat (Z.to_nat c.1 + j)%nat = false) →
  getitem rows cols (mask_fill m v a) = getitem rows cols a.
Proof.
  intros Hspared. unfold getitem. rewrite shape_mask_fill.
  apply list_eq; intros i. rewrite !list_lookup_fmap, !lookup_between.
  case_decide as Hi; [|done]. unfold mask_fill at 1. rewrite list_lookup_imap.
  destruct (a !! _) as [row|]; simpl; [|done]. f_equal.
  apply list_eq; intros j. rewrite !lookup_between.
  case_decide as Hj; [|done]. rewrite list_lookup_imap.
  destruct (row !! _) as [x|]; simpl; [|done].
  pose proof (Hspared i j Hi Hj) as Hm. simpl in Hm. by rewrite Hm.
Qed.

End Cropping.

Lemma interior_bounds (len : nat) :
  slice_indices (Slice (Some BOUNDARY_SIZE) (Some (- BOUNDARY_SIZE))) len
  = (Z.min 1 (Z.of_nat len), Z.max (Z.of_nat len - 1) 0).
Proof.
  unfold slice_indices, adjust_index, BOUNDARY_SIZE; simpl. f_equal. f_equal. lia.
Qed.

(** X4: for a lattice of shape [(R, C)], [plot_state] without
    boundaries shows an array of shape [(R - 2, C - 2)] (empty when a
    side is shorter than two) whose cell [(i, j)] is the cell
    [(i + 1, j + 1)] of the lattice; with boundaries it shows the
    lattice itself. *)
Theorem plot_state_values_interior (values : list (list Z)) (R C : nat) :
  rect R C values →
  rect (R - 2) (C - 2) (plot_state_values false values)
  ∧ (∀ i j, (i < R - 2)%nat → (j < C - 2)%nat →
       cell (plot_state_values false values) i j = cell values (S i) (S j))
  ∧ plot_state_values true values = values.
Proof.
  intros Hrect. pose proof Hrect as [Hlen Hrows].
  assert ((shape values).1 = R) as HR by done.
  assert ((0 < R)%nat → (shape values).2 = C) as HC
    by (intros HR0; by rewrite (rect_shape R C values)).
  split; [|split; [|done]].
  - unfold plot_state_values, getitem, rect. rewrite HR, !interior_bounds.
    split.
    + rewrite length_fmap. unfold between. rewrite length_take, length_drop. simpl. lia.
    + apply Forall_fmap, Forall_lookup. intros i row Hrow.
      rewrite lookup_between in Hrow. case_decide as Hi; [|done]. simpl in Hi.
      rewrite Forall_lookup in Hrows. apply Hrows in Hrow.
      rewrite HC by lia. simpl.
      unfold between. rewrite length_take, length_drop. simpl. lia.
  - intros i j Hi Hj. unfold plot_state_values. rewrite cell_getitem.
    rewrite HR, HC, !interior_bounds by lia. simpl.
    case_decide as Hin; [|lia]. f_equal; lia.
Qed.

Lemma plot_state_values_interior_witness :
  rect 1 1 (plot_state_values false [[1;2;3];[4;5;6];[7;8;9]])
  ∧ cell (plot_state_values false [[1;2;3];[4;5;6];[7;8;9]]) 0 0 = Some 5.
Proof.
  destruct (plot_state_values_interior [[1;2;3];[4;5;6];[7;8;9]] 3 3)
    as (Hshape & Hcells & _).
  - split; [reflexivity|]. repeat constructor.
  - split; [exact Hshape|]. rewrite (Hcells 0%nat 0%nat) by lia. reflexivity.
Defined.

(** X5: cleaning the boundary ring of the lattice, with any fill value,
    does not change what [plot_state] shows without boundaries. *)
Theorem plot_state_ignores_boundary {W} {array_dtype : dtype W Z}
    (array : ref) (fill_value : W)
    (h : gmap ref (list (list Z))) (a : list (list Z)) (R C : nat) :
  h !! array = Some a → rect R C a →
  ∃ a', clean_boundary_inplace array BOUNDARY_SIZE fill_value h
        = Some (array, <[array := a']> h)
    ∧ plot_state_values false a' = plot_state_values false a.
Proof.
  intros Hh Hrect. exists (cleaned BOUNDARY_SIZE fill_value a).
  split; [by apply clean_boundary_inplace_heap|].
  unfold plot_state_values. rewrite cleaned_mask.
  apply getitem_mask_fill. intros i j r c Hi Hj. subst r c.
  assert ((shape a).1 = R) as HR by apply Hrect.
  rewrite HR, interior_bounds in Hi. simpl in Hi.
  assert ((shape a).2 = C) as HC by (rewrite (rect_shape R C a); [done..|lia]).
  rewrite HC, interior_bounds in Hj. simpl in Hj.
  rewrite HR, HC, !interior_bounds. simpl.
  apply not_true_is_false. unfold BOUNDARY_SIZE.
  rewrite overwritten_iff by lia. lia.
Qed.

Lemma plot_state_ignores_boundary_witness :
  ∃ a', clean_boundary_inplace 1%positive BOUNDARY_SIZE 0
          {[ 1%positive := [[1;2;3];[4;5;6];[7;8;9]] ]}
        = Some (1%positive, <[1%positive := a']> {[ 1%positive := [[1;2;3];[4;5;6];[7;8;9]] ]})
    ∧ plot_state_values false a' = [[5]].
Proof.
  destruct (plot_state_ignores_boundary 1%positive 0
              {[ 1%positive := [[1;2;3];[4;5;6];[7;8;9]] ]}
              [[1;2;3];[4;5;6];[7;8;9]] 3 3) as (a' & Hcall & Hshown).
  - reflexivity.
  - split; [reflexivity|]. repeat constructor.
  - exists a'. split; [exact Hcall|]. rewrite Hshown. reflexivity.
Defined.

(** ** More on the relaxation loop *)

Section RelaxationMore.
Context {X : Type} (cls : subclass X).
Implicit Types (s : Simulation X).

Lemma row_sum_le (row : list bool) :
  (sum_list_with (λ b : bool, if b then 1 else 0) row ≤ length row)%nat.
Proof. induction row as [|[] row IH]; simpl; lia. Qed.

Lemma array_sum_le (a : list (list bool)) :
  array_sum a ≤ Z.of_nat (sum_list (length <$> a)).
Proof.
  unfold array_sum. apply inj_le.
  induction a as [|row a IH]; simpl; [done|].
  apply Nat.add_le_mono; [apply row_sum_le|exact IH].
Qed.

Lemma reset_by_shape (marks1 marks2 : list (list bool)) :
  length <$> marks1 = length <$> marks2 →
  (λ row : list bool, const false <$> row) <$> marks1
  = (λ row : list bool, const false <$> row) <$> marks2.
Proof.
  revert marks2. induction marks1 as [|row1 marks1 IH]; intros [|row2 marks2]; try done.
  simpl. intros [= Hrow Hrest]. f_equal; [|by apply IH].
  clear -Hrow. revert row2 Hrow.
  induction row1 as [|b1 row1 IH]; intros [|b2 row2]; try done.
  simpl. intros [= Hrow]. f_equal. by apply IH.
Qed.

(** The loop keeps the shape of the mask when the model's methods do. *)
Lemma relax_mask_shape fuel k s n s' :
  (∀ s1 t s2, topple cls s1 = Ok t s2 → length <$> visited s2 = length <$> visited s1) →
  (∀ s1 s2, dissipate cls s1 = Ok tt s2 → length <$> visited s2 = length <$> visited s1) →
  relax cls fuel k s = Ok n s' →
  length <$> visited s' = length <$> visited s.
Proof.
  intros Htopple Hdissipate. revert k s.
  induction fuel as [|fuel IH]; intros k s; [done|].
  simpl. unfold bind, ret.
  destruct (topple cls s) as [[] s1| |] eqn:Ht; try done.
  - destruct (dissipate cls s1) as [[] s2| |] eqn:Hd; try done.
    intros Hrest%IH. rewrite Hrest, (Hdissipate _ _ Hd). by eapply Htopple.
  - intros [= _ <-]. by eapply Htopple.
Qed.

End RelaxationMore.

(** X6: marks left in the visited mask by an earlier avalanche never
    count: [AvalancheLoop] behaves the same on an object whose mask holds
    any other marks, as long as the mask has the same shape. *)
Theorem AvalancheLoop_forgets_marks {X} (cls : subclass X) (fuel : nat)
    (s : Simulation X) (marks : list (list bool)) :
  length <$> marks = length <$> visited s →
  AvalancheLoop cls fuel (set_visited (λ _, marks) s) = AvalancheLoop cls fuel s.
Proof.
  intros Hshape. unfold AvalancheLoop, bind at 1, modify at 1.
  symmetry. unfold bind at 1, modify at 1.
  assert (reset_visited (set_visited (λ _, marks) s) = reset_visited s) as ->; [|done].
  unfold reset_visited, set_visited; simpl. f_equal. by apply reset_by_shape.
Qed.

Lemma AvalancheLoop_forgets_marks_witness :
  AvalancheLoop OneSite 5
    (set_visited (λ _, [[true;true;true];[true;true;true];[true;true;true]]) loaded)
  = AvalancheLoop OneSite 5 loaded.
Proof.
  apply (AvalancheLoop_forgets_marks OneSite 5 loaded
           [[true;true;true];[true;true;true];[true;true;true]]).
  reflexivity.
Defined.

(** X7: when the model's [topple] and [dissipate] keep the shape of the
    visited mask, the avalanche size that [AvalancheLoop] reports is at
    most the number of cells of the mask. *)
Theorem AvalancheLoop_size_bounded {X} (cls : subclass X) (fuel : nat)
    (s s' : Simulation X) (r : gmap string Z) :
  (∀ s1 t s2, topple cls s1 = Ok t s2 → length <$> visited s2 = length <$> visited s1) →
  (∀ s1 s2, dissipate cls s1 = Ok tt s2 → length <$> visited s2 = length <$> visited s1) →
  AvalancheLoop cls fuel s = Ok r s' →
  ∃ AvalancheSize, r !! "AvalancheSize" = Some AvalancheSize
    ∧ 0 ≤ AvalancheSize ≤ Z.of_nat (sum_list (length <$> visited s)).
Proof.
  intros Htopple Hdissipate (n & Hrelax & ->)%AvalancheLoop_relax.
  exists (array_sum (visited s')). split; [done|].
  split; [apply array_sum_nonneg|].
  apply (relax_mask_shape cls _ _ _ _ _ Htopple Hdissipate) in Hrelax.
  assert (length <$> visited (reset_visited s) = length <$> visited s) as Hreset.
  { unfold reset_visited; simpl. rewrite <- list_fmap_compose.
    apply list_fmap_ext. intros _ row _. simpl. by rewrite length_fmap. }
  rewrite <- Hreset, <- Hrelax. apply array_sum_le.
Qed.

Lemma AvalancheLoop_size_bounded_witness :
  ∃ AvalancheSize, observables 0 0 !! "AvalancheSize" = Some AvalancheSize
    ∧ 0 ≤ AvalancheSize ≤ Z.of_nat (sum_list (length <$> visited (fresh 1 (Some 100) tt))).
Proof.
  apply (AvalancheLoop_size_bounded Quiet 1 (fresh 1 (Some 100) tt)
           (reset_visited (fresh 1 (Some 100) tt)) (observables 0 0)).
  - intros s1 t s2 [= _ <-]. reflexivity.
  - intros s1 s2 [= <-]. reflexivity.
  - reflexivity.
Defined.

(** X8: the loop has no cap on its rounds: with a [topple] that always
    answers true and a [dissipate] that always returns, [AvalancheLoop]
    gives no answer however much fuel it gets. *)
Theorem AvalancheLoop_never_rests {X} (cls : subclass X) :
  (∀ s, ∃ s', topple cls s = Ok true s') →
  (∀ s, ∃ s', dissipate cls s = Ok tt s') →
  ∀ fuel s, AvalancheLoop cls fuel s = OutOfFuel.
Proof.
  intros Htopple Hdissipate fuel s.
  assert (∀ k s0, relax cls fuel k s0 = OutOfFuel) as Hrelax.
  { induction fuel as [|fuel IH]; intros k s0; [done|].
    simpl. unfold bind.
    destruct (Htopple s0) as [s1 ->]. destruct (Hdissipate s1) as [s2 ->]. apply IH. }
  unfold AvalancheLoop, bind, modify. by rewrite Hrelax.
Qed.

Lemma AvalancheLoop_never_rests_witness :
  AvalancheLoop Restless 1000 (fresh 1 (Some 100) tt) = OutOfFuel.
Proof.
  apply (AvalancheLoop_never_rests Restless).
  - intros s. exists s. reflexivity.
  - intros s. exists s. reflexivity.
Defined.

(** ** Saving a snapshot *)

(** X9: when the index [i // save_every] lies inside the store,
    [_save_snapshot(i)] puts the current lattice in that frame, leaves
    every other frame and the size of the store as they were, and
    changes nothing else of the object. *)
Theorem save_snapshot_writes_frame {X} (i c : Z) (s : Simulation X)
    (z : zarr_array) (frame : list (list Z)) :
  save_every s = Some c → c ≠ 0 →
  saved_snapshots s = Some z → values s = Some frame →
  0 ≤ i / c < Z.of_nat (length (frames z)) →
  ∃ z', _save_snapshot i s = Ok tt (set_saved_snapshots z' s)
    ∧ frames z' !! Z.to_nat (i / c) = Some (Some frame)
    ∧ (∀ k, k ≠ Z.to_nat (i / c) → frames z' !! k = frames z !! k)
    ∧ length (frames z') = length (frames z)
    ∧ frame_shape z' = frame_shape z.
Proof.
  intros Hevery Hc Hstore Hvalues [Hlo Hhi].
  exists (ZarrArray (frame_shape z) (<[Z.to_nat (i / c) := Some frame]> (frames z))).
  split; [|split; [|split; [|split]]]; simpl.
  - unfold _save_snapshot, bind, get, floordiv, ret, modify.
    rewrite Hevery, Hstore, Hvalues.
    destruct (Z.eqb_spec c 0) as [|_]; [done|].
    unfold zarr_setitem.
    destruct (Z.ltb_spec (i / c) 0); [lia|].
    destruct (Z.leb_spec 0 (i / c)); [|lia].
    destruct (Z.ltb_spec (i / c) (Z.of_nat (length (frames z)))); [|lia]. done.
  - apply list_lookup_insert_eq. lia.
  - intros k Hk. by apply list_lookup_insert_ne.
  - apply length_insert.
  - done.
Qed.

Lemma save_snapshot_writes_frame_witness :
  ∃ z', _save_snapshot 2
          (set_saved_snapshots (zarr_open 2 3 3) (fresh 1 (Some 2) tt))
        = Ok tt (set_saved_snapshots z'
                   (set_saved_snapshots (zarr_open 2 3 3) (fresh 1 (Some 2) tt)))
    ∧ frames z' !! 1%nat = Some (Some [[0;0;0];[0;0;0];[0;0;0]])
    ∧ frames z' !! 0%nat = Some None.
Proof.
  destruct (save_snapshot_writes_frame 2 2
              (set_saved_snapshots (zarr_open 2 3 3) (fresh 1 (Some 2) tt))
              (zarr_open 2 3 3) [[0;0;0];[0;0;0];[0;0;0]])
    as (z' & Hcall & Hframe & Hothers & _).
  - reflexivity.
  - lia.
  - reflexivity.
  - reflexivity.
  - change (0 ≤ 1 < 2). lia.
  - exists z'. split; [exact Hcall|]. split; [exact Hframe|].
    rewrite (Hothers 0%nat) by (change (0 ≠ 1)%nat; lia). reflexivity.
Defined.

(** X10: an index at or beyond the end of the store is refused:
    [_save_snapshot(i)] raises [IndexError] and the object, the store
    included, is left as it was. *)
Theorem save_snapshot_out_of_bounds {X} (i c : Z) (s : Simulation X)
    (z : zarr_array) (frame : list (list Z)) :
  save_every s = Some c → c ≠ 0 →
  saved_snapshots s = Some z → values s = Some frame →
  Z.of_nat (length (frames z)) ≤ i / c →
  _save_snapshot i s = Raise IndexError s.
Proof.
  intros Hevery Hc Hstore Hvalues Hbeyond.
  unfold _save_snapshot, bind, get, floordiv, ret, raise.
  rewrite Hevery, Hstore, Hvalues.
  destruct (Z.eqb_spec c 0) as [|_]; [done|].
  unfold zarr_setitem.
  destruct (Z.ltb_spec (i / c) 0); [lia|].
  destruct (Z.ltb_spec (i / c) (Z.of_nat (length (frames z)))); [lia|].
  by rewrite andb_false_r.
Qed.

Lemma save_snapshot_out_of_bounds_witness :
  _save_snapshot 4 (set_saved_snapshots (zarr_open 2 3 3) (fresh 1 (Some 2) tt))
  = Raise IndexError (set_saved_snapshots (zarr_open 2 3 3) (fresh 1 (Some 2) tt)).
Proof.
  apply (save_snapshot_out_of_bounds 4 2 _ (zarr_open 2 3 3) [[0;0;0];[0;0;0];[0;0;0]]).
  - reflexivity.
  - lia.
  - reflexivity.
  - reflexivity.
  - change (2 ≤ 2). lia.
Defined.

(** ** [run] at its edges *)

(** X11: [run] fails before its first step, leaving the object as it
    was, when [save_every] is zero ([ZeroDivisionError]) and when the
    model never assigned [values] ([AttributeError]); the cadence is
    looked at first. *)
Theorem run_allocation_errors {X} (cls : subclass X) (fuel : nat) (N_iterations : Z)
    (s : Simulation X) :
  (save_every s = Some 0 → run cls fuel N_iterations s = Raise ZeroDivisionError s)
  ∧ (∀ c, save_every s = Some c → c ≠ 0 → values s = None →
       run cls fuel N_iterations s = Raise AttributeError s).
Proof.
  split.
  - intros Hevery. unfold run, bind, get, floordiv. by rewrite Hevery.
  - intros c Hevery Hc Hvalues. unfold run, bind, get, floordiv, ret, raise.
    rewrite Hevery, Hvalues. by destruct (Z.eqb_spec c 0).
Qed.

Lemma run_allocation_errors_witness :
  run OneSite 10 5 (fresh 1 (Some 0) 0%nat) = Raise ZeroDivisionError (fresh 1 (Some 0) 0%nat)
  ∧ ∃ s, @__init__ unit 1 (Some 100) tt = inr s
      ∧ run Base 10 5 s = Raise AttributeError s.
Proof.
  split.
  - apply (proj1 (run_allocation_errors OneSite 10 5 (fresh 1 (Some 0) 0%nat))).
    reflexivity.
  - eexists. split; [reflexivity|].
    eapply (proj2 (run_allocation_errors Base 10 5 _) 100); [reflexivity|lia|reflexivity].
Defined.

(** X12: with no step to make ([N_iterations <= 0]) and a cadence of
    at least one, [run] returns at once: no method of the model is
    called, no record is added, and the store it allocates has its
    single frame unwritten. *)
Theorem run_no_steps {X} (cls : subclass X) (fuel : nat) (N_iterations c : Z)
    (s : Simulation X) :
  N_iterations ≤ 0 → 1 ≤ c → save_every s = Some c → is_Some (values s) →
  ∃ s', run cls fuel N_iterations s = Ok tt s'
    ∧ s' = set_saved_snapshots (zarr_open 1 (L_with_boundary s) (L_with_boundary s)) s
    ∧ data_acquisition s' = data_acquisition s
    ∧ (frames <$> saved_snapshots s') = Some [None].
Proof.
  intros HN Hc Hevery [frame Hvalues].
  eexists. split; [|split; [reflexivity|split; reflexivity]].
  unfold run, bind, get, floordiv, ret, modify. rewrite Hevery, Hvalues.
  destruct (Z.eqb_spec c 0) as [|_]; [lia|].
  assert (Z.max (N_iterations / c) 1 = 1) as ->.
  { pose proof (Z.div_le_upper_bound N_iterations c 0 ltac:(lia) ltac:(lia)). lia. }
  unfold range. rewrite Z2Nat.nonpos by done. done.
Qed.

Lemma run_no_steps_witness :
  ∃ s', run Base 0 0 (fresh 1 (Some 100) tt) = Ok tt s'
    ∧ s' = set_saved_snapshots (zarr_open 1 3 3) (fresh 1 (Some 100) tt)
    ∧ data_acquisition s' = []
    ∧ (frames <$> saved_snapshots s') = Some [None].
Proof.
  apply (run_no_steps Base 0 0 100 (fresh 1 (Some 100) tt)).
  - lia.
  - lia.
  - reflexivity.
  - eexists. reflexivity.
Defined.

(** X13: on a model that does not override [drive], [run] with at
    least one step allocates the store and then fails in its first step
    with [NotImplementedError]; no record is added. *)
Theorem run_without_drive {X} (cls : subclass X) (fuel : nat) (N_iterations c : Z)
    (s : Simulation X) :
  drive_override cls = None →
  1 ≤ N_iterations → save_every s = Some c → c ≠ 0 → is_Some (values s) →
  ∃ s', run cls fuel N_iterations s
        = Raise (NotImplementedError "Your model needs to override the drive method!") s'
    ∧ s' = set_saved_snapshots
             (zarr_open (snapshot_capacity N_iterations c)
                (L_with_boundary s) (L_with_boundary s)) s
    ∧ data_acquisition s' = data_acquisition s.
Proof.
  intros Hdrive HN Hevery Hc [frame Hvalues].
  eexists. split; [|split; reflexivity].
  unfold run, bind at 1, get at 1. rewrite Hevery.
  unfold bind at 1, floordiv. destruct (Z.eqb_spec c 0) as [|_]; [done|].
  unfold ret at 1. rewrite Hvalues. unfold bind at 1, modify at 1.
  unfold range. destruct (Z.to_nat N_iterations) as [|n] eqn:Hn; [lia|].
  simpl. unfold bind at 1. unfold run_step, bind at 1, drive. rewrite Hdrive. done.
Qed.

Lemma run_without_drive_witness :
  ∃ s', run Base 10 5 (fresh 1 (Some 100) tt)
        = Raise (NotImplementedError "Your model needs to override the drive method!") s'
    ∧ s' = set_saved_snapshots (zarr_open (snapshot_capacity 5 100) 3 3)
             (fresh 1 (Some 100) tt)
    ∧ data_acquisition s' = [].
Proof.
  apply (run_without_drive Base 10 5 100 (fresh 1 (Some 100) tt)).
  - reflexivity.
  - lia.
  - reflexivity.
  - lia.
  - eexists. reflexivity.
Defined.

(** ** What a completed [run] leaves behind *)

Section Completed.
Context {X : Type} (cls : subclass X) (fuel : nat) (c : Z).

(** What the model keeps true of the object between steps. *)
Variable inv : Simulation X → Prop.
Hypothesis inv_values : ∀ s, inv s → is_Some (values s).
Hypothesis inv_data : ∀ s f, inv s → inv (set_data_acquisition f s).
Hypothesis inv_store : ∀ s z, inv s → inv (set_saved_snapshots z s).

(** Every avalanche ends within the fuel, and the model's methods leave
    the records, the cadence and the store alone. *)
Hypothesis step_ends : ∀ s, inv s →
  ∃ r s2, bind (drive cls) (λ _, AvalancheLoop cls fuel) s = Ok r s2
    ∧ inv s2
    ∧ data_acquisition s2 = data_acquisition s
    ∧ save_every s2 = save_every s
    ∧ saved_snapshots s2 = saved_snapshots s.

Hypothesis cadence : 1 ≤ c.

(** One step: a record more, and a frame written when the step saves. *)
Lemma run_step_ends (i : Z) (s : Simulation X) (z : zarr_array) :
  0 ≤ i → inv s → save_every s = Some c → saved_snapshots s = Some z →
  (i `mod` c = 0 → i / c < Z.of_nat (length (frames z))) →
  ∃ s' r,
    run_step cls fuel i s = Ok tt s' ∧ inv s' ∧ save_every s' = Some c
    ∧ record_ok r ∧ data_acquisition s' = data_acquisition s ++ [r]
    ∧ ∃ z', saved_snapshots s' = Some z'
        ∧ frame_shape z' = frame_shape z
        ∧ frames z' = if decide (i `mod` c = 0)
                      then <[Z.to_nat (i / c) := values s']> (frames z)
                      else frames z.
Proof.
  intros Hi Hinv Hevery Hstore Hfits.
  destruct (step_ends s Hinv) as (r & s2 & Hstep & Hinv2 & Hdata2 & Hevery2 & Hstore2).
  unfold bind in Hstep.
  destruct (drive cls s) as [[] s1| |] eqn:Hdrive; try done.
  pose proof Hstep as Hloop.
  apply AvalancheLoop_relax in Hloop as (n & Hrelax & Hr).
  apply relax_counter in Hrelax.
  assert (record_ok r) as Hok.
  { exists (array_sum (visited s2)), n. split; [done|].
    split; [apply array_sum_nonneg|done]. }
  set (s3 := set_data_acquisition (λ l, l ++ [r]) s2).
  assert (save_every s3 = Some c) as Hevery3 by (simpl; congruence).
  assert (saved_snapshots s3 = Some z) as Hstore3 by (simpl; congruence).
  assert (run_step cls fuel i s
          = if i `mod` c =? 0 then _save_snapshot i s3 else Ok tt s3) as ->.
  { unfold run_step, bind at 1. rewrite Hdrive.
    unfold bind at 1. rewrite Hstep.
    unfold bind at 1, modify at 1. unfold bind at 1, get at 1. fold s3.
    rewrite Hevery3. unfold bind at 1, pymod.
    destruct (Z.eqb_spec c 0) as [|_]; [lia|]. unfold ret at 1.
    by destruct (i `mod` c =? 0). }
  destruct (Z.eqb_spec (i `mod` c) 0) as [Hmod|Hmod].
  - destruct (inv_values s2 Hinv2) as [frame Hframe].
    assert (0 ≤ i / c) as Hlo by (apply Z.div_pos; lia).
    specialize (Hfits Hmod).
    unfold _save_snapshot, bind, get, floordiv, ret, modify.
    rewrite Hevery3, Hstore3.
    assert (values s3 = Some frame) as Hframe3 by done.
    rewrite Hframe3.
    destruct (Z.eqb_spec c 0) as [|_]; [lia|].
    unfold zarr_setitem.
    destruct (Z.ltb_spec (i / c) 0); [lia|].
    destruct (Z.leb_spec 0 (i / c)); [|lia].
    destruct (Z.ltb_spec (i / c) (Z.of_nat (length (frames z)))); [|lia]. simpl.
    eexists _, r. split; [reflexivity|].
    split; [by apply inv_store, inv_data|]. split; [done|]. split; [done|].
    split; [simpl; by rewrite Hdata2|].
    eexists. split; [reflexivity|]. split; [done|]. simpl.
    rewrite decide_True by done. by rewrite Hframe.
  - exists s3, r. split; [done|]. split; [by apply inv_data|].
    split; [done|]. split; [done|]. split; [simpl; by rewrite Hdata2|].
    exists z. split; [done|]. split; [done|]. by rewrite decide_False.
Qed.

(** The loop over the steps [a, a + 1, ..., a + n - 1]. *)
Lemma for_each_ends (n a : nat) (s : Simulation X) (z : zarr_array) :
  inv s → save_every s = Some c → saved_snapshots s = Some z →
  (∀ t, (t < n)%nat → Z.of_nat (a + t) `mod` c = 0 →
        Z.of_nat (a + t) / c < Z.of_nat (length (frames z))) →
  ∃ s' z' records,
    for_each (run_step cls fuel) (Z.of_nat <$> seq a n) s = Ok tt s'
    ∧ inv s' ∧ save_every s' = Some c
    ∧ data_acquisition s' = data_acquisition s ++ records
    ∧ length records = n ∧ Forall record_ok records
    ∧ saved_snapshots s' = Some z'
    ∧ length (frames z') = length (frames z)
    ∧ (∀ k : nat,
         (∀ t, (t < n)%nat → Z.of_nat (a + t) `mod` c = 0 →
               Z.to_nat (Z.of_nat (a + t) / c) ≠ k) →
         frames z' !! k = frames z !! k)
    ∧ (∀ t, (t < n)%nat → Z.of_nat (a + t) `mod` c = 0 →
         ∃ s_t, for_each_states (run_step cls fuel) (Z.of_nat <$> seq a n) s !! t
                = Some s_t
           ∧ frames z' !! Z.to_nat (Z.of_nat (a + t) / c) = Some (values s_t)).
Proof.
  revert a s z. induction n as [|n IH]; intros a s z Hinv Hevery Hstore Hfits.
  { exists s, z, []. rewrite app_nil_r. repeat split; try done; intros; lia. }
  destruct (run_step_ends (Z.of_nat a) s z ltac:(lia) Hinv Hevery Hstore)
    as (s1 & r & Hstep & Hinv1 & Hevery1 & Hok & Hdata1 & z1 & Hstore1 & _ & Hframes1).
  { intros Hmod. specialize (Hfits 0%nat ltac:(lia)).
    rewrite Nat.add_0_r in Hfits. by apply Hfits. }
  assert (length (frames z1) = length (frames z)) as Hlen1.
  { rewrite Hframes1. case_decide; [apply length_insert|done]. }
  destruct (IH (S a) s1 z1 Hinv1 Hevery1 Hstore1)
    as (s' & z' & records & Hrest & Hinv' & Hevery' & Hdata' & Hlen & Hoks
        & Hstore' & Hlen' & Hkeep & Hsaved).
  { intros t Ht. rewrite Hlen1.
    replace (S a + t)%nat with (a + S t)%nat by lia. apply Hfits. lia. }
  exists s', z', (r :: records).
  split; [simpl; unfold bind; by rewrite Hstep|].
  split; [done|]. split; [done|].
  split; [by rewrite Hdata', Hdata1, <- app_assoc|].
  split; [simpl; by rewrite Hlen|]. split; [by constructor|].
  split; [done|]. split; [congruence|].
  split.
  - intros k Hk. rewrite Hkeep.
    + rewrite Hframes1. case_decide as Hmod; [|done].
      apply list_lookup_insert_ne.
      specialize (Hk 0%nat ltac:(lia)). rewrite Nat.add_0_r in Hk. by apply Hk.
    + intros t Ht. replace (S a + t)%nat with (a + S t)%nat by lia. apply Hk. lia.
  - intros [|t] Ht Hmod.
    + rewrite Nat.add_0_r in Hmod |- *. exists s1. simpl. rewrite Hstep.
      split; [done|]. rewrite Hkeep.
      * rewrite Hframes1, decide_True by done. apply list_lookup_insert_eq.
        specialize (Hfits 0%nat ltac:(lia)). rewrite Nat.add_0_r in Hfits.
        specialize (Hfits Hmod).
        assert (0 ≤ Z.of_nat a / c) by (apply Z.div_pos; lia). lia.
      * intros t' Ht' Hmod'.
        assert (Z.of_nat a / c < Z.of_nat (S a + t') / c); [|
          assert (0 ≤ Z.of_nat a / c) by (apply Z.div_pos; lia); lia].
        pose proof (Z.div_mod (Z.of_nat a) c ltac:(lia)).
        pose proof (Z.div_mod (Z.of_nat (S a + t')) c ltac:(lia)).
        nia.
    + replace (a + S t)%nat with (S a + t)%nat in Hmod |- * by lia.
      destruct (Hsaved t ltac:(lia) Hmod) as (s_t & Hstate & Hframe).
      exists s_t. simpl. rewrite Hstep. done.
Qed.

(** The loop of [run], from the allocation on. *)
Lemma run_ends (N : Z) (s : Simulation X) :
  N < c ∨ N `mod` c = 0 → inv s → save_every s = Some c →
  ∃ s' z' records,
    run cls fuel N s = Ok tt s'
    ∧ inv s' ∧ save_every s' = Some c
    ∧ data_acquisition s' = data_acquisition s ++ records
    ∧ length records = Z.to_nat N ∧ Forall record_ok records
    ∧ saved_snapshots s' = Some z'
    ∧ Z.of_nat (length (frames z')) = snapshot_capacity N c
    ∧ (∀ k : nat, Z.of_nat k * c < N →
         ∃ s_k, run_states cls fuel N s !! Z.to_nat (Z.of_nat k * c) = Some s_k
           ∧ frames z' !! k = Some (values s_k)).
Proof.
  intros Hfit Hinv Hevery.
  destruct (inv_values s Hinv) as [frame Hframe].
  set (z := zarr_open (snapshot_capacity N c) (L_with_boundary s) (L_with_boundary s)).
  assert (Z.of_nat (length (frames z)) = snapshot_capacity N c) as Hcap.
  { unfold z, zarr_open; simpl. rewrite length_replicate. unfold snapshot_capacity. lia. }
  destruct (for_each_ends (Z.to_nat N) 0 (set_saved_snapshots z s) z)
    as (s' & z' & records & Hloop & Hinv' & Hevery' & Hdata & Hlen & Hoks
        & Hstore' & Hlen' & _ & Hsaved).
  - by apply inv_store.
  - done.
  - done.
  - intros t Ht Hmod. rewrite Hcap. apply snapshot_index_fits; [done|done|lia|done].
  - assert (floordiv N (save_every s) s = Ok (N / c) s) as Hdiv.
    { rewrite Hevery. unfold floordiv. by destruct (Z.eqb_spec c 0) as [|_]; [lia|]. }
    exists s', z', records.
    split.
    { unfold run, bind at 1, get at 1. unfold bind at 1. rewrite Hdiv, Hframe.
      unfold bind, modify. exact Hloop. }
    split; [done|]. split; [done|]. split; [done|]. split; [done|]. split; [done|].
    split; [done|]. split; [by rewrite Hlen'|].
    intros k Hk.
    destruct (Hsaved (Z.to_nat (Z.of_nat k * c)) ltac:(lia)) as (s_k & Hstate & Hframe_k).
    { rewrite Nat.add_0_l, Z2Nat.id by lia. apply Z.mod_mul. lia. }
    exists s_k. split.
    + unfold run_states. rewrite Hdiv, Hframe. exact Hstate.
    + rewrite Nat.add_0_l, Z2Nat.id, Z.div_mul, Nat2Z.id in Hframe_k by lia. done.
Qed.

End Completed.

(** X14: for a model whose steps all end and leave the records, the
    cadence and the store alone, and a number of steps shorter than one
    cadence or a whole number of them, [run(N)] returns; it keeps the
    records that were there and adds [N] after them, each with a
    nonnegative size and count. *)
Theorem run_appends_records {X} (cls : subclass X) (fuel : nat) (c N : Z)
    (inv : Simulation X → Prop) (s : Simulation X) :
  (∀ s, inv s → is_Some (values s)) →
  (∀ s f, inv s → inv (set_data_acquisition f s)) →
  (∀ s z, inv s → inv (set_saved_snapshots z s)) →
  (∀ s, inv s →
     ∃ r s2, bind (drive cls) (λ _, AvalancheLoop cls fuel) s = Ok r s2
       ∧ inv s2 ∧ data_acquisition s2 = data_acquisition s
       ∧ save_every s2 = save_every s ∧ saved_snapshots s2 = saved_snapshots s) →
  1 ≤ c → N < c ∨ N `mod` c = 0 → inv s → save_every s = Some c →
  ∃ s' records,
    run cls fuel N s = Ok tt s'
    ∧ data_acquisition s' = data_acquisition s ++ records
    ∧ length records = Z.to_nat N
    ∧ Forall record_ok records.
Proof.
  intros Hvalues Hdata Hstore Hstep Hc Hfit Hinv Hevery.
  destruct (run_ends cls fuel c inv Hvalues Hdata Hstore Hstep Hc N s Hfit Hinv Hevery)
    as (s' & z' & records & Hrun & _ & _ & Hrecords & Hlen & Hoks & _).
  by exists s', records.
Qed.

(** X15: under the same conditions, two calls of [run] in a row on the
    same object put the records of both in one list, those of the first
    call first. *)
Theorem run_twice {X} (cls : subclass X) (fuel : nat) (c N1 N2 : Z)
    (inv : Simulation X → Prop) (s : Simulation X) :
  (∀ s, inv s → is_Some (values s)) →
  (∀ s f, inv s → inv (set_data_acquisition f s)) →
  (∀ s z, inv s → inv (set_saved_snapshots z s)) →
  (∀ s, inv s →
     ∃ r s2, bind (drive cls) (λ _, AvalancheLoop cls fuel) s = Ok r s2
       ∧ inv s2 ∧ data_acquisition s2 = data_acquisition s
       ∧ save_every s2 = save_every s ∧ saved_snapshots s2 = saved_snapshots s) →
  1 ≤ c → N1 < c ∨ N1 `mod` c = 0 → N2 < c ∨ N2 `mod` c = 0 →
  inv s → save_every s = Some c →
  ∃ s' records1 records2,
    bind (run cls fuel N1) (λ _, run cls fuel N2) s = Ok tt s'
    ∧ data_acquisition s' = data_acquisition s ++ records1 ++ records2
    ∧ length records1 = Z.to_nat N1 ∧ length records2 = Z.to_nat N2.
Proof.
  intros Hvalues Hdata Hstore Hstep Hc Hfit1 Hfit2 Hinv Hevery.
  destruct (run_ends cls fuel c inv Hvalues Hdata Hstore Hstep Hc N1 s Hfit1 Hinv Hevery)
    as (s1 & z1 & records1 & Hrun1 & Hinv1 & Hevery1 & Hrecords1 & Hlen1 & _).
  destruct (run_ends cls fuel c inv Hvalues Hdata Hstore Hstep Hc N2 s1 Hfit2 Hinv1 Hevery1)
    as (s2 & z2 & records2 & Hrun2 & _ & _ & Hrecords2 & Hlen2 & _).
  exists s2, records1, records2. unfold bind. rewrite Hrun1.
  split; [done|]. split; [|done]. by rewrite Hrecords2, Hrecords1, <- app_assoc.
Qed.

(** X16: under the same conditions, after [run(N)] the store has
    [max(N // c, 1)] frames, and for every [k] with [k * c < N] its
    frame [k] holds the lattice as it stood at the end of step
    [k * c]. *)
Theorem run_snapshot_content {X} (cls : subclass X) (fuel : nat) (c N : Z)
    (inv : Simulation X → Prop) (s : Simulation X) :
  (∀ s, inv s → is_Some (values s)) →
  (∀ s f, inv s → inv (set_data_acquisition f s)) →
  (∀ s z, inv s → inv (set_saved_snapshots z s)) →
  (∀ s, inv s →
     ∃ r s2, bind (drive cls) (λ _, AvalancheLoop cls fuel) s = Ok r s2
       ∧ inv s2 ∧ data_acquisition s2 = data_acquisition s
       ∧ save_every s2 = save_every s ∧ saved_snapshots s2 = saved_snapshots s) →
  1 ≤ c → N < c ∨ N `mod` c = 0 → inv s → save_every s = Some c →
  ∃ s' z',
    run cls fuel N s = Ok tt s'
    ∧ saved_snapshots s' = Some z'
    ∧ Z.of_nat (length (frames z')) = snapshot_capacity N c
    ∧ ∀ k : nat, Z.of_nat k * c < N →
        ∃ s_k, run_states cls fuel N s !! Z.to_nat (Z.of_nat k * c) = Some s_k
          ∧ frames z' !! k = Some (values s_k).
Proof.
  intros Hvalues Hdata Hstore Hstep Hc Hfit Hinv Hevery.
  destruct (run_ends cls fuel c inv Hvalues Hdata Hstore Hstep Hc N s Hfit Hinv Hevery)
    as (s' & z' & records & Hrun & _ & _ & _ & _ & _ & Hstore' & Hcap & Hframes).
  by exists s', z'.
Qed.

Lemma Piling_step_ends (s : Simulation unit) :
  is_Some (values s) →
  ∃ r s2, bind (drive Piling) (λ _, AvalancheLoop Piling 1) s = Ok r s2
    ∧ is_Some (values s2) ∧ data_acquisition s2 = data_acquisition s
    ∧ save_every s2 = save_every s ∧ saved_snapshots s2 = saved_snapshots s.
Proof.
  intros [v Hv]. unfold bind at 1, drive; simpl. rewrite Hv.
  eexists _, _. split; [reflexivity|]. simpl. eauto.
Qed.

Lemma run_appends_records_witness :
  ∃ s' records,
    run Piling 1 4 (fresh 1 (Some 2) tt) = Ok tt s'
    ∧ data_acquisition s' = data_acquisition (fresh 1 (Some 2) tt) ++ records
    ∧ length records = Z.to_nat 4
    ∧ Forall record_ok records.
Proof.
  apply (run_appends_records Piling 1 2 4 (λ s, is_Some (values s))).
  - done.
  - done.
  - done.
  - exact Piling_step_ends.
  - lia.
  - right. reflexivity.
  - eexists. reflexivity.
  - reflexivity.
Defined.

Lemma run_twice_witness :
  ∃ s' records1 records2,
    bind (run Piling 1 4) (λ _, run Piling 1 1) (fresh 1 (Some 2) tt) = Ok tt s'
    ∧ data_acquisition s'
      = data_acquisition (fresh 1 (Some 2) tt) ++ records1 ++ records2
    ∧ length records1 = Z.to_nat 4 ∧ length records2 = Z.to_nat 1.
Proof.
  apply (run_twice Piling 1 2 4 1 (λ s, is_Some (values s))).
  - done.
  - done.
  - done.
  - exact Piling_step_ends.
  - lia.
  - right. reflexivity.
  - left. lia.
  - eexists. reflexivity.
  - reflexivity.
Defined.

Lemma run_snapshot_content_witness :
  ∃ s' z',
    run Piling 1 4 (fresh 1 (Some 2) tt) = Ok tt s'
    ∧ saved_snapshots s' = Some z'
    ∧ Z.of_nat (length (frames z')) = snapshot_capacity 4 2
    ∧ ∀ k : nat, Z.of_nat k * 2 < 4 →
        ∃ s_k, run_states Piling 1 4 (fresh 1 (Some 2) tt) !! Z.to_nat (Z.of_nat k * 2)
               = Some s_k
          ∧ frames z' !! k = Some (values s_k).
Proof.
  apply (run_snapshot_content Piling 1 2 4 (λ s, is_Some (values s))).
  - done.
  - done.
  - done.
  - exact Piling_step_ends.
  - lia.
  - right. reflexivity.
  - eexists. reflexivity.
  - reflexivity.
Defined.

Example Piling_frames :
  ∃ s', run Piling 1 4 (fresh 1 (Some 2) tt) = Ok tt s'
    ∧ (frames <$> saved_snapshots s')
      = Some [Some [[0;0;0];[0;1;0];[0;0;0]]; Some [[0;0;0];[0;3;0];[0;0;0]]].
Proof. eexists. split; [vm_compute; reflexivity|]. reflexivity. Qed.

(** ** Construction *)

Lemma array_sum_zeros (n : Z) : array_sum (zeros n) = 0.
Proof.
  unfold array_sum, zeros.
  assert (∀ k, sum_list_with (λ b : bool, if b then 1 else 0)%nat (replicate k false) = 0%nat)
    as Hrow by (induction k; simpl; auto).
  assert (∀ k row, sum_list_with (λ b : bool, if b then 1 else 0)%nat row = 0%nat →
    sum_list_with (λ row, sum_list_with (λ b : bool, if b then 1 else 0)%nat row)
      (replicate k row) = 0%nat) as Hrows.
  { intros k row Hzero. induction k as [|k IH]; simpl; [done|]. by rewrite Hzero. }
  by rewrite Hrows.
Qed.

(** X17: a lattice size [L] below [-2] is refused with [ValueError];
    otherwise the new object has a visited mask of [L + 2] rows of
    [L + 2] cells, none of them marked, and an empty list of records.
    [L = -2] gives a mask without cells and [L = 0] one that is all
    boundary. *)
Theorem init_object {X} (L : Z) (cadence : option Z) (x : X) :
  (L + 2 < 0 → __init__ L cadence x = inl ValueError)
  ∧ (0 ≤ L + 2 →
     ∃ s, __init__ L cadence x = inr s
       ∧ L_with_boundary s = L + 2
       ∧ rect (Z.to_nat (L + 2)) (Z.to_nat (L + 2)) (visited s)
       ∧ array_sum (visited s) = 0
       ∧ data_acquisition s = []
       ∧ save_every s = cadence).
Proof.
  unfold __init__, BOUNDARY_SIZE. replace (L + 2 * 1) with (L + 2) by lia.
  split; intros HL.
  - by destruct (Z.ltb_spec (L + 2) 0); [|lia].
  - destruct (Z.ltb_spec (L + 2) 0); [lia|].
    eexists. split; [reflexivity|]. simpl. split; [done|].
    split; [|split; [apply array_sum_zeros|done]].
    unfold zeros. split; [apply length_replicate|].
    apply Forall_replicate. apply length_replicate.
Qed.

Lemma init_object_witness :
  @__init__ unit (-3) (Some 100) tt = inl ValueError
  ∧ ∃ s, @__init__ unit 1 (Some 100) tt = inr s
      ∧ L_with_boundary s = 1 + 2
      ∧ rect (Z.to_nat (1 + 2)) (Z.to_nat (1 + 2)) (visited s)
      ∧ array_sum (visited s) = 0
      ∧ data_acquisition s = []
      ∧ save_every s = Some 100.
Proof.
  split.
  - apply (proj1 (init_object (-3) (Some 100) tt)). lia.
  - apply (proj2 (init_object 1 (Some 100) tt)). lia.
Defined.

(** ** The visited mask with its boundary cleared *)

Lemma row_sum_within (row : list bool) (lo hi : nat) :
  (∀ j, row !! j = Some true → (lo ≤ j < hi)%nat) →
  (sum_list_with (λ b : bool, if b then 1 else 0) row ≤ hi - lo)%nat.
Proof.
  revert lo hi. induction row as [|b row IH]; intros lo hi Htrue; simpl; [lia|].
  specialize (IH (lo - 1)%nat (hi - 1)%nat).
  assert (∀ j, row !! j = Some true → (lo - 1 ≤ j < hi - 1)%nat) as Htail.
  { intros j Hj. specialize (Htrue (S j) Hj). lia. }
  specialize (IH Htail). destruct b; [|lia].
  specialize (Htrue 0%nat eq_refl). lia.
Qed.

Lemma row_sum_marked (row : list bool) :
  sum_list_with (λ b : bool, if b then 1 else 0)%nat row ≠ 0%nat →
  ∃ j, row !! j = Some true.
Proof.
  induction row as [|[] row IH]; simpl; [done| |].
  - intros _. by exists 0%nat.
  - intros [j Hj]%IH. by exists (S j).
Qed.

Lemma array_sum_within (a : list (list bool)) (lo hi lo' hi' : nat) :
  (∀ i j, cell a i j = Some true → (lo ≤ i < hi)%nat ∧ (lo' ≤ j < hi')%nat) →
  array_sum a ≤ Z.of_nat ((hi - lo) * (hi' - lo')).
Proof.
  intros Htrue. unfold array_sum. apply inj_le.
  revert lo hi Htrue. induction a as [|row a IH]; intros lo hi Htrue; simpl;
    [apply Nat.le_0_l|].
  specialize (IH (lo - 1)%nat (hi - 1)%nat).
  assert (∀ i j, cell a i j = Some true →
            (lo - 1 ≤ i < hi - 1)%nat ∧ (lo' ≤ j < hi')%nat) as Htail.
  { intros i j Hij. specialize (Htrue (S i) j Hij). lia. }
  specialize (IH Htail).
  assert (sum_list_with (λ b : bool, if b then 1 else 0)%nat row ≤ hi' - lo')%nat as Hrow.
  { apply row_sum_within. intros j Hj. by apply (Htrue 0%nat j). }
  destruct (decide (sum_list_with (λ b : bool, if b then 1 else 0)%nat row = 0%nat))
    as [Hzero|Hmarked].
  - rewrite Hzero. simpl.
    etrans; [exact IH|]. apply Nat.mul_le_mono_r. lia.
  - apply row_sum_marked in Hmarked as [j Hj].
    destruct (Htrue 0%nat j Hj) as [Hi _].
    etrans; [apply Nat.add_le_mono; [exact Hrow|exact IH]|]. nia.
Qed.

(** X18: once the boundary ring of a visited mask of shape [(R, C)],
    with both sides at least two, is cleared, the marks it holds number
    at most [(R - 2) * (C - 2)]; when the mask has the shape of the mask
    of a simulation, that is at most the [size] of the simulation,
    [L * L]. *)
Theorem cleared_mask_sum (array : ref) (h : gmap ref (list (list bool)))
    (mask : list (list bool)) (R C : nat) :
  h !! array = Some mask → rect R C mask → (2 ≤ R)%nat → (2 ≤ C)%nat →
  ∃ mask', clean_boundary_inplace array BOUNDARY_SIZE false h
           = Some (array, <[array := mask']> h)
    ∧ 0 ≤ array_sum mask' ≤ (Z.of_nat R - 2) * (Z.of_nat C - 2)
    ∧ ∀ (X : Type) (L : Z) (cadence : option Z) (x : X) (s : Simulation X),
        __init__ L cadence x = inr s →
        Z.of_nat R = L_with_boundary s → Z.of_nat C = L_with_boundary s →
        array_sum mask' ≤ size s ∧ size s = L * L.
Proof.
  intros Hh Hrect HR HC. exists (cleaned BOUNDARY_SIZE false mask).
  split; [by apply clean_boundary_inplace_heap|].
  assert (array_sum (cleaned BOUNDARY_SIZE false mask)
          ≤ (Z.of_nat R - 2) * (Z.of_nat C - 2)) as Hbound.
  { replace ((Z.of_nat R - 2) * (Z.of_nat C - 2))
      with (Z.of_nat (((R - 1) - 1) * ((C - 1) - 1))) by (rewrite Nat2Z.inj_mul, !Nat2Z.inj_sub by lia; f_equal; lia).
    apply array_sum_within. intros i j Hij.
    rewrite cleaned_mask, cell_mask_fill in Hij.
    destruct (cell mask i j) as [b|] eqn:Hcell; [|done].
    assert (i < R)%nat as Hi.
    { unfold cell in Hcell. destruct (mask !! i) as [row|] eqn:Hrow; [|done].
      destruct Hrect as [<- _]. by eapply lookup_lt_Some. }
    assert (j < C)%nat as Hj.
    { unfold cell in Hcell. destruct (mask !! i) as [row|] eqn:Hrow; [|done].
      destruct Hrect as [_ Hrows]. rewrite Forall_lookup in Hrows.
      rewrite <- (Hrows _ _ Hrow). by eapply lookup_lt_Some. }
    rewrite (rect_shape R C mask) in Hij by (done || lia). simpl in Hij.
    destruct (overwritten R C BOUNDARY_SIZE i j) eqn:Hov; [done|].
    apply not_true_iff_false in Hov. unfold BOUNDARY_SIZE in Hov.
    rewrite overwritten_iff in Hov by lia. lia. }
  split; [split; [apply array_sum_nonneg|exact Hbound]|].
  intros X L cadence x s Hinit HRs HCs.
  unfold __init__, BOUNDARY_SIZE in Hinit.
  destruct (L + 2 * 1 <? 0); [done|]. injection Hinit as <-. simpl in *.
  split; [|done]. rewrite HRs, HCs in Hbound.
  replace ((L + 2 * 1 - 2) * (L + 2 * 1 - 2)) with (L * L) in Hbound by lia. done.
Qed.

Lemma cleared_mask_sum_witness :
  ∃ mask', clean_boundary_inplace 1%positive BOUNDARY_SIZE false
             {[ 1%positive := [[true;true;true];[true;true;true];[true;true;true]] ]}
           = Some (1%positive, <[1%positive := mask']>
               {[ 1%positive := [[true;true;true];[true;true;true];[true;true;true]] ]})
    ∧ 0 ≤ array_sum mask' ≤ (Z.of_nat 3 - 2) * (Z.of_nat 3 - 2)
    ∧ array_sum mask' ≤ 1 * 1.
Proof.
  destruct (cleared_mask_sum 1%positive
              {[ 1%positive := [[true;true;true];[true;true;true];[true;true;true]] ]}
              [[true;true;true];[true;true;true];[true;true;true]] 3 3)
    as (mask' & Hcall & Hbound & Hsize).
  - reflexivity.
  - split; [reflexivity|]. repeat constructor.
  - lia.
  - lia.
  - exists mask'. split; [exact Hcall|]. split; [exact Hbound|].
    destruct (Hsize unit 1 (Some 100) tt _ eq_refl eq_refl eq_refl) as [Hle Hsz].
    exact Hle.
Defined.
